(** * generate_assets_payload.py: a shallow embedding and its properties

    The script builds a batch of synthetic asset records (a random
    hexadecimal checksum, a random display name, tier-dependent extra
    metadata), serialises the batch with [json.dumps(payload, indent=2)],
    writes it to [assets_<count>_<tier>.json] and prints a summary.

    Conventions of the embedding:
    - a Python [str] is a [string]; its characters are code points below 256;
    - a Python [int] is a [Z];
    - a Python [dict] is an association list in insertion order (the order
      [json.dumps] prints), a Python [list] is a [list];
    - the random module is a state: an arbitrary stream of naturals and the
      number of draws made so far; every statement below holds for all
      streams;
    - exceptions are values of [exn]; a computation is a function from a
      state to an exception or a result, together with the state it leaves;
    - the file system is a finite map from file names to contents. *)

From Stdlib Require Import Ascii String ZArith Lia DecimalString.
From stdpp Require Import gmap strings list.

Local Open Scope Z_scope.

(** ** Python values the script builds *)

Unset Elimination Schemes.
Inductive pyval : Type :=
| PStr (s : string)
| PList (xs : list pyval)
| PDict (items : list (string * pyval)).
Set Elimination Schemes.

(** ** Exceptions and the state-and-exception monad *)

Inductive exn : Type :=
| ValueError
| IndexError
| OverflowError
| SystemExit (code : Z).

Definition M (St A : Type) : Type := St -> (exn + A) * St.

Definition ret {St A : Type} (a : A) : M St A := fun s => (inr a, s).

Definition raise {St A : Type} (e : exn) : M St A := fun s => (inl e, s).

Definition bind {St A B : Type} (m : M St A) (k : A -> M St B) : M St B :=
  fun s =>
    match m s with
    | (inl e, s') => (inl e, s')
    | (inr a, s') => k a s'
    end.

Notation "x <~ m ;; k" := (bind m (fun x => k))
  (at level 100, m at next level, right associativity).
Notation "m ;;; k" := (bind m (fun _ => k))
  (at level 100, right associativity).

(** [[f(x) for x in xs]] where [f] has effects. *)
Fixpoint comprehension {St A B : Type} (f : A -> M St B) (xs : list A)
  : M St (list B) :=
  match xs with
  | [] => ret []
  | x :: xs' => y <~ f x ;; ys <~ comprehension f xs' ;; ret (y :: ys)
  end.

(** ** Builtins *)

(** [range(n)]: empty when [n <= 0]. *)
Definition range (n : Z) : list Z := Z.of_nat <$> seq 0 (Z.to_nat n).

(** [str(i)] and the [{i}] field of an f-string, for an [int]. *)
Definition str_int (i : Z) : string := NilZero.string_of_int (Z.to_int i).

(** [s * n]: the empty string when [n <= 0]. *)
Fixpoint str_repeat (s : string) (n : nat) : string :=
  match n with
  | O => EmptyString
  | S n' => s +:+ str_repeat s n'
  end.

Definition str_mul (s : string) (n : Z) : string := str_repeat s (Z.to_nat n).

(** [str.isspace] on one character, for code points below 256:
    TAB, LF, VT, FF, CR, FS, GS, RS, US, SPACE, NEL and NBSP. *)
Definition isspace (c : ascii) : bool :=
  let n := nat_of_ascii c in
  ((9 <=? n) && (n <=? 13) || (28 <=? n) && (n <=? 32)
   || (n =? 133) || (n =? 160))%nat.

Fixpoint lstrip (s : string) : string :=
  match s with
  | EmptyString => EmptyString
  | String c s' => if isspace c then lstrip s' else s
  end.

Fixpoint rstrip (s : string) : string :=
  match s with
  | EmptyString => EmptyString
  | String c s' =>
      match rstrip s' with
      | EmptyString => if isspace c then EmptyString else String c EmptyString
      | t => String c t
      end
  end.

(** [s.strip()] *)
Definition strip (s : string) : string := rstrip (lstrip s).

(** ["".join(cs)] for a list of one-character strings. *)
Definition join (cs : list ascii) : string := string_of_list_ascii cs.

(** ** The random module *)

Record rng : Type := Rng { entropy : nat -> nat; drawn : nat }.

Definition advance (g : rng) : rng := Rng (entropy g) (S (drawn g)).

(** One element of [random.choices]: [population[floor(random() * n)]];
    indexing an empty population raises [IndexError]. *)
Definition choice1 (population : list ascii) : M rng ascii :=
  fun g =>
    let i := (entropy g (drawn g) mod length population)%nat in
    (match population !! i with
     | Some c => inr c
     | None => inl IndexError
     end, advance g).

Fixpoint choices_n (population : list ascii) (k : nat) : M rng (list ascii) :=
  match k with
  | O => ret []
  | S k' =>
      c <~ choice1 population ;; cs <~ choices_n population k' ;; ret (c :: cs)
  end.

(** [random.choices(population, k=k)] *)
Definition choices (population : string) (k : Z) : M rng (list ascii) :=
  choices_n (list_ascii_of_string population) (Z.to_nat k).

(** [random.randint(a, b)]: an integer of the inclusive range, [ValueError]
    on an empty range. *)
Definition randint (a b : Z) : M rng Z :=
  if b <? a then raise ValueError
  else fun g =>
    (inr (a + Z.of_nat (entropy g (drawn g) mod Z.to_nat (b - a + 1))),
     advance g).

(** [string.ascii_letters] and [string.digits] *)
Definition ascii_letters : string :=
  "abcdefghijklmnopqrstuvwxyzABCDEFGHIJKLMNOPQRSTUVWXYZ".
Definition digits : string := "0123456789".

(** ** The generators *)

Definition hex_alphabet : string := "0123456789abcdef".

Definition generate_hex_checksum : M rng string :=
  cs <~ choices hex_alphabet 64 ;; ret (join cs).

Definition display_alphabet : string := ascii_letters +:+ digits +:+ " ".

Definition generate_display : M rng string :=
  length <~ randint 10 120 ;;
  cs <~ choices display_alphabet length ;;
  ret (strip (join cs)).

Definition generate_extra (size : string) : pyval :=
  if String.eqb size "none" then PDict []
  else if String.eqb size "small" then
    PDict [ ("source", PStr "test_script");
            ("version", PStr "1.0");
            ("tags", PList [PStr "test"; PStr "generated"]) ]
  else if String.eqb size "medium" then
    PDict [ ("source", PStr "test_script");
            ("version", PStr "1.0");
            ("tags", PList [PStr "test"; PStr "generated"; PStr "medium"]);
            ("metadata",
              PDict [ ("created_by", PStr "test_user");
                      ("project", PStr "asset_testing");
                      ("environment", PStr "development") ]);
            ("description", PStr (str_mul "A" 200)) ]
  else if String.eqb size "large" then
    PDict [ ("source", PStr "test_script");
            ("version", PStr "1.0");
            ("tags",
              PList ([PStr "test"; PStr "generated"; PStr "large"]
                     ++ ((fun i => PStr ("tag_" +:+ str_int i)) <$> range 20)));
            ("metadata",
              PDict [ ("created_by", PStr "test_user");
                      ("project", PStr "asset_testing");
                      ("environment", PStr "development");
                      ("config",
                        PDict ((fun i => ("key_" +:+ str_int i,
                                          PStr ("value_" +:+ str_int i)))
                               <$> range 50)) ]);
            ("description", PStr (str_mul "B" 500));
            ("notes", PStr (str_mul "C" 300)) ]
  else PDict [].

Definition generate_asset_payload (extra_size : string) : M rng pyval :=
  checksum <~ generate_hex_checksum ;;
  display <~ generate_display ;;
  ret (PDict [ ("checksum", PStr checksum);
               ("display", PStr display);
               ("extra", generate_extra extra_size) ]).

Definition generate_batch_payload (num_assets : Z) (extra_size : string)
  : M rng pyval :=
  assets <~ comprehension (fun _ => generate_asset_payload extra_size)
                          (range num_assets) ;;
  ret (PDict [ ("assets", PList assets) ]).

(** ** json.dumps(obj, indent=2)

    The encoder of the json module with its defaults: [ensure_ascii=True],
    item separator [","], key separator [": "], insertion order of keys. *)

Definition dquote : ascii := ascii_of_nat 34.
Definition LF : ascii := ascii_of_nat 10.

Definition hex_char (n : nat) : ascii :=
  default "0"%char (list_ascii_of_string hex_alphabet !! n).

(** One character inside a JSON string literal: the short escapes, the
    printable ASCII characters as they are, everything else as [\u00xx]. *)
Definition escape_char (c : ascii) : string :=
  let n := nat_of_ascii c in
  if (n =? 34)%nat then String "\" (String dquote EmptyString)
  else if (n =? 92)%nat then "\\"
  else if (n =? 10)%nat then "\n"
  else if (n =? 13)%nat then "\r"
  else if (n =? 9)%nat then "\t"
  else if (n =? 8)%nat then "\b"
  else if (n =? 12)%nat then "\f"
  else if ((32 <=? n) && (n <=? 126))%nat then String c EmptyString
  else "\u00" +:+ String (hex_char (n / 16)) (String (hex_char (n mod 16))
                                                 EmptyString).

Fixpoint escape (s : string) : string :=
  match s with
  | EmptyString => EmptyString
  | String c s' => escape_char c +:+ escape s'
  end.

Definition encode_basestring_ascii (s : string) : string :=
  String dquote (escape s +:+ String dquote EmptyString).

(** ['\n' + indent * level] with [indent] two spaces. *)
Definition newline_indent (level : nat) : string :=
  String LF (str_repeat "  " level).

(** [sep.join(parts)] *)
Fixpoint join_str (sep : string) (parts : list string) : string :=
  match parts with
  | [] => EmptyString
  | [p] => p
  | p :: ps => p +:+ sep +:+ join_str sep ps
  end.

Fixpoint iterencode (v : pyval) (level : nat) : string :=
  match v with
  | PStr s => encode_basestring_ascii s
  | PList [] => "[]"
  | PList xs =>
      "[" +:+ newline_indent (S level)
      +:+ join_str ("," +:+ newline_indent (S level))
            (map (fun x => iterencode x (S level)) xs)
      +:+ newline_indent level +:+ "]"
  | PDict [] => "{}"
  | PDict items =>
      "{" +:+ newline_indent (S level)
      +:+ join_str ("," +:+ newline_indent (S level))
            (map (fun kv => encode_basestring_ascii (fst kv) +:+ ": "
                            +:+ iterencode (snd kv) (S level)) items)
      +:+ newline_indent level +:+ "}"
  end.

Definition json_dumps (obj : pyval) : string := iterencode obj 0.

(** ** json.loads

    The decoder of the json module on documents made of strings, arrays and
    objects, the values of this data model; numbers, [true], [false] and
    [null] are outside it and the model rejects them, as it rejects a
    [\uXXXX] escape of a code point above 255.  [None] stands for
    [JSONDecodeError]. *)










(** ** Numbers: int and float

    A binary64 value is kept as the exact dyadic rational
    [fnum / 2 ^ fexp] it denotes.  The script only converts integers to
    float, divides by [1024.0], compares with [1024.0] and formats with
    [.2f]: conversion rounds to 53 significant bits (ties to even) and
    overflows from [2 ^ 1024] on; dividing a value of magnitude at least
    1024 by a power of two only changes the exponent, so it is exact;
    comparison is exact; formatting rounds the exact value (ties to even). *)

Record float : Type := Float { fnum : Z; fexp : nat }.

Inductive pynum : Type :=
| NInt (i : Z)
| NFloat (x : float).

#[global] Instance result_ret : MRet (sum exn) := fun A a => inr a.
#[global] Instance result_bind : MBind (sum exn) :=
  fun A B f r => match r with inl e => inl e | inr a => f a end.

(** [float(i)] *)
Definition float_of_int (i : Z) : exn + float :=
  let a := Z.abs i in
  let e := Z.log2 a - 52 in
  if e <=? 0 then inr (Float i 0)
  else
    let q := a / 2 ^ e in
    let r := a mod 2 ^ e in
    let half := 2 ^ (e - 1) in
    let m := if (r <? half) || ((r =? half) && Z.even q) then q else q + 1 in
    let v := m * 2 ^ e in
    if 2 ^ 1024 <=? v then inl OverflowError
    else inr (Float (Z.sgn i * v) 0).

(** [x < 1024.0] *)
Definition lt_1024 (x : pynum) : bool :=
  match x with
  | NInt i => i <? 1024
  | NFloat f => fnum f <? 1024 * 2 ^ Z.of_nat (fexp f)
  end.

(** [x / 1024.0] *)
Definition truediv_1024 (x : pynum) : exn + float :=
  f ← match x with NInt i => float_of_int i | NFloat f => inr f end;
  mret (Float (fnum f) (fexp f + 10)).

(** The integer nearest to [n / d], ties to even, for [0 <= n], [0 < d]. *)
Definition round_half_even (n d : Z) : Z :=
  let q := n / d in
  let r := n mod d in
  if 2 * r <? d then q
  else if d <? 2 * r then q + 1
  else if Z.even q then q else q + 1.

Definition two_digits (n : Z) : string :=
  str_int (n / 10) +:+ str_int (n mod 10).

(** The text for a number of hundredths: ["12.34"] for [1234]. *)
Definition render_hundredths (h : Z) : string :=
  str_int (h / 100) +:+ "." +:+ two_digits (h mod 100).

(** [f"{x:.2f}"] for a float. *)
Definition format_float_2f (f : float) : string :=
  (if fnum f <? 0 then "-" else "")
  +:+ render_hundredths
        (round_half_even (100 * Z.abs (fnum f)) (2 ^ Z.of_nat (fexp f))).

(** [f"{x:.2f}"]: an int is converted to float first. *)
Definition format_2f (x : pynum) : exn + string :=
  f ← match x with NInt i => float_of_int i | NFloat f => inr f end;
  mret (format_float_2f f).

(** ** format_size *)

Fixpoint format_size_loop (units : list string) (size_bytes : pynum)
  : exn + string :=
  match units with
  | [] => text ← format_2f size_bytes; mret (text +:+ " TB")
  | unit :: units' =>
      if lt_1024 size_bytes then
        text ← format_2f size_bytes; mret (text +:+ " " +:+ unit)
      else
        x ← truediv_1024 size_bytes;
        format_size_loop units' (NFloat x)
  end.

Definition format_size (size_bytes : pynum) : exn + string :=
  format_size_loop ["B"; "KB"; "MB"; "GB"] size_bytes.

(** ** int(text) for a decimal literal

    Surrounding whitespace, an optional sign, digits with single
    underscores between them; more than 4300 digits are refused. *)

Definition is_digit (c : ascii) : bool :=
  let n := nat_of_ascii c in ((48 <=? n) && (n <=? 57))%nat.

Fixpoint int_digits (acc : Z) (after_digit : bool) (s : string) : option Z :=
  match s with
  | EmptyString => if after_digit then Some acc else None
  | String c s' =>
      if is_digit c then
        int_digits (10 * acc + Z.of_nat (nat_of_ascii c - 48)) true s'
      else if Ascii.eqb c "_" then
        if after_digit then int_digits acc false s' else None
      else None
  end.

Definition count_digits (s : string) : nat :=
  length (filter (fun c => is_digit c = true) (list_ascii_of_string s)).

Definition py_int (text : string) : exn + Z :=
  let s := strip text in
  let '(negative, body) :=
    match s with
    | String c s' =>
        if Ascii.eqb c "-" then (true, s')
        else if Ascii.eqb c "+" then (false, s')
        else (false, s)
    | EmptyString => (false, s)
    end in
  if (4300 <? count_digits body)%nat then inl ValueError
  else match int_digits 0 false body with
       | Some n => inr (if negative then - n else n)
       | None => inl ValueError
       end.

(** ** The process: file system, standard output, random state *)

Record world : Type :=
  World { fs : gmap string string; stdout : list string; random : rng }.

Definition print (text : string) : M world unit :=
  fun w => (inr tt, World (fs w) (stdout w ++ [text]) (random w)).

(** [with open(name, "w") as f: f.write(contents)] *)
Definition write_file (name contents : string) : M world unit :=
  fun w => (inr tt, World (<[name := contents]> (fs w)) (stdout w) (random w)).

Definition with_random {A : Type} (m : M rng A) : M world A :=
  fun w => let '(r, g) := m (random w) in (r, World (fs w) (stdout w) g).

Definition lift_result {St A : Type} (r : exn + A) : M St A := fun s => (r, s).

(** [s.encode("utf-8")] for code points below 256: one byte below 128, two
    bytes from 128 on. *)
Fixpoint encode_utf8 (s : string) : list ascii :=
  match s with
  | EmptyString => []
  | String c s' =>
      let n := nat_of_ascii c in
      if (n <? 128)%nat then c :: encode_utf8 s'
      else ascii_of_nat (192 + n / 64) :: ascii_of_nat (128 + n mod 64)
           :: encode_utf8 s'
  end.

(** U+2713, kept as the three bytes print writes for it. *)
Definition check_mark : string := "✓".

Definition extra_sizes : list string := ["none"; "small"; "medium"; "large"].

Definition main (argv : list string) : M world unit :=
  num_assets <~ match argv !! 1%nat with
                | Some arg => lift_result (py_int arg)
                | None => ret 1000
                end ;;
  let extra_size := default "small" (argv !! 2%nat) in
  (if bool_decide (extra_size ∈ extra_sizes) then ret tt
   else
     print ("Invalid extra_size: " +:+ extra_size) ;;;
     print "Valid options: none, small, medium, large" ;;;
     raise (SystemExit 1)) ;;;
  print ("Generating " +:+ str_int num_assets +:+ " assets with '"
         +:+ extra_size +:+ "' extra data...") ;;;
  payload <~ with_random (generate_batch_payload num_assets extra_size) ;;
  let json_str := json_dumps payload in
  let filename :=
    "assets_" +:+ str_int num_assets +:+ "_" +:+ extra_size +:+ ".json" in
  write_file filename json_str ;;;
  let size := Z.of_nat (length (encode_utf8 json_str)) in
  print (check_mark +:+ " Generated: " +:+ filename) ;;;
  formatted <~ lift_result (format_size (NInt size)) ;;
  print (check_mark +:+ " Size: " +:+ formatted) ;;;
  print (check_mark +:+ " Assets: " +:+ str_int num_assets) ;;;
  print (String LF "To test with curl:") ;;;
  print "curl -X POST http://localhost:8080/api/assets \" ;;;
  print ("  -H " +:+ String dquote "Content-Type: application/json"
         +:+ String dquote " \") ;;;
  print ("  -d @" +:+ filename).

(** The exit status of [python generate_assets_payload.py ...]: 0 when
    [main] returns, the code of [sys.exit], 1 for an uncaught exception. *)
Definition exit_status (r : exn + unit) : Z :=
  match r with
  | inr _ => 0
  | inl (SystemExit code) => code
  | inl _ => 1
  end.

Definition run_script (argv : list string) (w : world) : Z * world :=
  let '(r, w') := main argv w in (exit_status r, w').

(** ** Vocabulary of the statements *)

(** [d.get(k)] on a value: the entry of key [k] when the value is a dict. *)
Fixpoint assoc (k : string) (items : list (string * pyval)) : option pyval :=
  match items with
  | [] => None
  | (k', v) :: items' => if String.eqb k' k then Some v else assoc k items'
  end.

Definition dict_get (k : string) (d : pyval) : option pyval :=
  match d with
  | PDict items => assoc k items
  | _ => None
  end.

(** The characters of a string. *)
Definition chars (s : string) : list ascii := list_ascii_of_string s.

(** [assets] are the results of successive calls of
    [generate_asset_payload], each on the random state the previous call
    left: from [g] to [g']. *)
Inductive generated (extra_size : string) : rng -> list pyval -> rng -> Prop :=
| generated_nil g : generated extra_size g [] g
| generated_cons g a g1 assets g' :
    generate_asset_payload extra_size g = (inr a, g1) ->
    generated extra_size g1 assets g' ->
    generated extra_size g (a :: assets) g'.

(** The shape of one record: the three keys in order, two strings and the
    tier's extra structure. *)
Definition asset_shape (extra_size : string) (a : pyval) : Prop :=
  ∃ checksum display : string,
    a = PDict [ ("checksum", PStr checksum);
                ("display", PStr display);
                ("extra", generate_extra extra_size) ].

(** The letters, digits and space a display name is drawn from, as the
    specification lists them. *)
Definition display_chars : list ascii :=
  chars "ABCDEFGHIJKLMNOPQRSTUVWXYZ" ++ chars "abcdefghijklmnopqrstuvwxyz"
  ++ chars "0123456789" ++ chars " ".

(** A random state whose every draw is [n]. *)
Definition constant_rng (n : nat) : rng := Rng (fun _ => n) 0.

(** The twenty generated tag names, written out. *)
Definition tag_names : list string :=
  [ "tag_0"; "tag_1"; "tag_2"; "tag_3"; "tag_4"; "tag_5"; "tag_6"; "tag_7";
    "tag_8"; "tag_9"; "tag_10"; "tag_11"; "tag_12"; "tag_13"; "tag_14";
    "tag_15"; "tag_16"; "tag_17"; "tag_18"; "tag_19" ].

(** Every character of [s] is [c]. *)
Definition all_chars (c : ascii) (s : string) : Prop :=
  Forall (λ x, x = c) (chars s).

(** The name of the output file, [assets_<count>_<tier>.json]. *)
Definition asset_file_name (count : Z) (tier : string) : string :=
  "assets_" +:+ str_int count +:+ "_" +:+ tier +:+ ".json".


(** [sys.maxsize] of a 64-bit build: the largest length [len] returns, so
    the largest byte count [format_size] is given. *)
Definition sys_maxsize : Z := 2 ^ 63 - 1.

(** The units [format_size] can name, smallest first. *)
Definition size_units : list string := ["B"; "KB"; "MB"; "GB"; "TB"].

(** Induction on values, through lists and dicts. *)
Fixpoint pyval_ind (P : pyval -> Prop)
    (Hstr : ∀ s, P (PStr s))
    (Hlist : ∀ xs, Forall P xs -> P (PList xs))
    (Hdict : ∀ items, Forall (λ kv, P (snd kv)) items -> P (PDict items))
    (v : pyval) : P v :=
  match v with
  | PStr s => Hstr s
  | PList xs =>
      Hlist xs
        ((fix all (l : list pyval) : Forall P l :=
            match l with
            | [] => List.Forall_nil P
            | x :: l' =>
                List.Forall_cons P x l' (pyval_ind P Hstr Hlist Hdict x) (all l')
            end) xs)
  | PDict items =>
      Hdict items
        ((fix all (l : list (string * pyval)) : Forall (λ kv, P (snd kv)) l :=
            match l with
            | [] => List.Forall_nil _
            | kv :: l' =>
                List.Forall_cons (λ kv, P (snd kv)) kv l'
                  (pyval_ind P Hstr Hlist Hdict (snd kv)) (all l')
            end) items)
  end.

(** The number of nested decoder calls a value needs. *)
Fixpoint size (v : pyval) : nat :=
  match v with
  | PStr _ => 1
  | PList xs => S (list_sum (map (λ x, S (size x)) xs))
  | PDict items => S (list_sum (map (λ kv, S (size (snd kv))) items))
  end.



(** The text of the elements of a non-empty list, and of the entries of a
    non-empty dict, as [iterencode] joins them one level down. *)
Definition encode_items (lv : nat) (xs : list pyval) : string :=
  join_str ("," +:+ newline_indent lv) (map (λ x, iterencode x lv) xs).

Definition encode_entry (lv : nat) (kv : string * pyval) : string :=
  encode_basestring_ascii (fst kv) +:+ ": " +:+ iterencode (snd kv) lv.

Definition encode_entries (lv : nat) (items : list (string * pyval)) : string :=
  join_str ("," +:+ newline_indent lv) (map (encode_entry lv) items).


(** ** Vocabulary of the further statements *)

(** The count and the tier [main] reads from the command line. *)
Definition count_of (argv : list string) : exn + Z :=
  match argv !! 1%nat with
  | Some arg => py_int arg
  | None => inr 1000
  end.

Definition tier_of (argv : list string) : string :=
  default "small" (argv !! 2%nat).

(** The line printed before generating and the lines of the summary. *)
Definition progress_line (count : Z) (tier : string) : string :=
  "Generating " +:+ str_int count +:+ " assets with '" +:+ tier
  +:+ "' extra data...".

Definition generated_line (count : Z) (tier : string) : string :=
  check_mark +:+ " Generated: " +:+ asset_file_name count tier.

Definition report_lines (count : Z) (tier formatted : string) : list string :=
  [ generated_line count tier;
    check_mark +:+ " Size: " +:+ formatted;
    check_mark +:+ " Assets: " +:+ str_int count;
    String LF "To test with curl:";
    "curl -X POST http://localhost:8080/api/assets \";
    "  -H " +:+ String dquote "Content-Type: application/json"
    +:+ String dquote " \";
    "  -d @" +:+ asset_file_name count tier ].

(** The size [main] passes to [format_size]. *)
Definition byte_size (text : string) : Z :=
  Z.of_nat (length (encode_utf8 text)).


(** One generated record in full: the three keys in order, a checksum of 64
    hexadecimal digits, a display name of at most 120 letters, digits and
    spaces that neither starts nor ends with whitespace, and the extra
    structure of the selector. *)
Definition asset_record (extra_size : string) (a : pyval) : Prop :=
  ∃ checksum display : string,
    a = PDict [ ("checksum", PStr checksum);
                ("display", PStr display);
                ("extra", generate_extra extra_size) ]
    ∧ String.length checksum = 64%nat
    ∧ (∀ c, c ∈ chars checksum -> c ∈ chars "0123456789abcdef")
    ∧ (String.length display <= 120)%nat
    ∧ (∀ c, c ∈ chars display -> c ∈ display_chars)
    ∧ (∀ c t, display = String c t -> isspace c = false)
    ∧ (∀ t c, display = t +:+ String c "" -> isspace c = false).

(** Every character of [s] is whitespace. *)
Definition all_space (s : string) : Prop :=
  Forall (λ c, isspace c = true) (chars s).

(** Every character of [s] is an ASCII character. *)
Definition is_ascii_text (s : string) : Prop :=
  Forall (λ c, (nat_of_ascii c < 128)%nat) (chars s).

(** A printable ASCII character other than the double quote and the
    backslash: what a JSON string literal holds as it is. *)
Definition plain (c : ascii) : bool :=
  let n := nat_of_ascii c in
  ((32 <=? n) && (n <=? 126) && negb (n =? 34) && negb (n =? 92))%nat.

(** The characters one record adds to the file besides its display name,
    by tier: braces, keys, separators, indentation, the checksum and the
    extra structure. *)
Definition record_chars (tier : string) : Z :=
  if String.eqb tier "small" then 272
  else if String.eqb tier "medium" then 666
  else if String.eqb tier "large" then 3390
  else 138.

(** The length of the display name of a record. *)
Definition display_length (a : pyval) : Z :=
  match dict_get "display" a with
  | Some (PStr display) => Z.of_nat (String.length display)
  | _ => 0
  end.

(** The sum of a list of integers. *)
Definition sum_Z (l : list Z) : Z := foldr Z.add 0 l.

(** The first integer [float] refuses: the largest binary64 value plus half
    a unit in its last place, [2 ^ 1024 - 2 ^ 970]. *)
Definition float_limit : Z := 2 ^ 1024 - 2 ^ 970.

(** * Properties *)

(** ** Strings *)

Lemma append_cons (x : ascii) (a b : string) :
  String x a +:+ b = String x (a +:+ b).
Proof. reflexivity. Qed.

Lemma append_nil_l (b : string) : "" +:+ b = b.
Proof. reflexivity. Qed.

Lemma append_assoc (a b c : string) : (a +:+ b) +:+ c = a +:+ (b +:+ c).
Proof.
  induction a as [|x a IH]; [reflexivity |].
  rewrite !append_cons. f_equal. exact IH.
Qed.

Lemma append_nil_r (a : string) : a +:+ "" = a.
Proof.
  induction a as [|x a IH]; [reflexivity |].
  rewrite append_cons. f_equal. exact IH.
Qed.

Lemma length_append (a b : string) :
  String.length (a +:+ b) = (String.length a + String.length b)%nat.
Proof.
  induction a as [|x a IH]; [reflexivity |].
  rewrite append_cons. simpl. f_equal. exact IH.
Qed.

Lemma chars_length (s : string) : length (chars s) = String.length s.
Proof. induction s as [|c s IH]; simpl; [reflexivity | f_equal; exact IH]. Qed.

Lemma join_length (cs : list ascii) : String.length (join cs) = length cs.
Proof. induction cs as [|c cs IH]; simpl; [reflexivity | f_equal; exact IH]. Qed.

Lemma chars_join (cs : list ascii) : chars (join cs) = cs.
Proof. apply list_ascii_of_string_of_list_ascii. Qed.

Lemma lstrip_length (s : string) :
  (String.length (lstrip s) <= String.length s)%nat.
Proof.
  induction s as [|c s IH]; simpl; [lia |].
  destruct (isspace c); simpl; lia.
Qed.

Lemma rstrip_length (s : string) :
  (String.length (rstrip s) <= String.length s)%nat.
Proof.
  induction s as [|c s IH]; simpl; [lia |].
  destruct (rstrip s); [destruct (isspace c) |]; simpl in *; lia.
Qed.

Lemma lstrip_chars (s : string) (c : ascii) :
  c ∈ chars (lstrip s) -> c ∈ chars s.
Proof.
  induction s as [|x s IH]; simpl; [easy |].
  destruct (isspace x); [| easy].
  intros H. apply elem_of_cons. right. now apply IH.
Qed.

Lemma rstrip_chars (s : string) (c : ascii) :
  c ∈ chars (rstrip s) -> c ∈ chars s.
Proof.
  induction s as [|x s IH]; simpl; [easy |].
  destruct (rstrip s) as [|y t] eqn:E.
  - destruct (isspace x); simpl; [inversion 1 |].
    intros H. apply elem_of_cons in H as [-> | H]; [left | inversion H].
  - intros H. change (chars (String x (String y t))) with (x :: chars (String y t)) in H.
    apply elem_of_cons in H as [-> | H]; [left | right; now apply IH].
Qed.

(** What [lstrip] returns does not start with whitespace. *)
Lemma lstrip_head (s : string) (c : ascii) (t : string) :
  lstrip s = String c t -> isspace c = false.
Proof.
  induction s as [|x s IH]; simpl; [discriminate |].
  destruct (isspace x) eqn:E; [exact IH |].
  intros [= <- <-]. exact E.
Qed.

(** [rstrip] keeps a first character that is not whitespace. *)
Lemma rstrip_head (s : string) (c : ascii) (t : string) :
  rstrip s = String c t ->
  (∀ x u, s = String x u -> isspace x = false) -> isspace c = false.
Proof.
  destruct s as [|x s]; simpl; [discriminate |].
  intros H Hx. specialize (Hx x s eq_refl).
  destruct (rstrip s); [rewrite Hx in H |]; now injection H as <- _.
Qed.

(** What [rstrip] returns does not end with whitespace. *)
Lemma rstrip_last (s t : string) (c : ascii) :
  rstrip s = t +:+ String c "" -> isspace c = false.
Proof.
  revert t. induction s as [|x s IH]; intros t; simpl.
  - destruct t; discriminate.
  - destruct (rstrip s) as [|y r] eqn:E.
    + destruct (isspace x) eqn:Ex.
      * destruct t; discriminate.
      * destruct t as [|z [|z' t]]; simpl; try discriminate.
        now intros [= <-].
    + destruct t as [|z t]; simpl; [discriminate |].
      intros [= _ H]. now apply (IH t).
Qed.

Lemma strip_length (s : string) :
  (String.length (strip s) <= String.length s)%nat.
Proof.
  unfold strip. pose proof (rstrip_length (lstrip s)).
  pose proof (lstrip_length s). lia.
Qed.

Lemma strip_chars (s : string) (c : ascii) : c ∈ chars (strip s) -> c ∈ chars s.
Proof. intros H. now apply lstrip_chars, rstrip_chars. Qed.

Lemma strip_head (s : string) (c : ascii) (t : string) :
  strip s = String c t -> isspace c = false.
Proof.
  unfold strip. intros H. apply (rstrip_head _ _ _ H).
  intros x u Hx. now apply (lstrip_head s x u).
Qed.

Lemma strip_last (s t : string) (c : ascii) :
  strip s = t +:+ String c "" -> isspace c = false.
Proof. apply rstrip_last. Qed.

(** ** The random primitives *)

Lemma choice1_ok (population : list ascii) (g : rng) :
  population ≠ [] ->
  ∃ c, choice1 population g = (inr c, advance g) ∧ c ∈ population.
Proof.
  intros Hne. unfold choice1.
  assert (Hlt : (entropy g (drawn g) mod length population < length population)%nat).
  { apply Nat.mod_upper_bound. destruct population; simpl; [congruence | lia]. }
  destruct (lookup_lt_is_Some_2 _ _ Hlt) as [c Hc].
  exists c. rewrite Hc. split; [reflexivity |].
  apply list_elem_of_lookup. eauto.
Qed.

Lemma choices_n_ok (population : list ascii) (k : nat) (g : rng) :
  population ≠ [] ->
  ∃ cs g', choices_n population k g = (inr cs, g')
           ∧ length cs = k ∧ Forall (λ c, c ∈ population) cs.
Proof.
  intros Hne. revert g. induction k as [|k IH]; intros g; simpl.
  - exists [], g. repeat split. constructor.
  - destruct (choice1_ok population g Hne) as (c & Hc & Hin).
    destruct (IH (advance g)) as (cs & g' & Hcs & Hlen & Hall).
    exists (c :: cs), g'. unfold bind. rewrite Hc, Hcs. simpl.
    repeat split; [lia | now constructor].
Qed.

Lemma choices_ok (population : string) (k : Z) (g : rng) :
  population ≠ "" ->
  ∃ cs g', choices population k g = (inr cs, g')
           ∧ length cs = Z.to_nat k ∧ Forall (λ c, c ∈ chars population) cs.
Proof.
  intros Hne. apply choices_n_ok.
  destruct population; [congruence | discriminate].
Qed.

Lemma randint_ok (a b : Z) (g : rng) :
  a <= b -> ∃ n, randint a b g = (inr n, advance g) ∧ a <= n <= b.
Proof.
  intros Hab. unfold randint.
  destruct (Z.ltb_spec b a); [lia |].
  eexists. split; [reflexivity |].
  pose proof (Nat.mod_upper_bound (entropy g (drawn g)) (Z.to_nat (b - a + 1))).
  lia.
Qed.

(** ** The generators *)

Lemma generate_hex_checksum_ok (g : rng) :
  ∃ cs g',
    choices hex_alphabet 64 g = (inr cs, g')
    ∧ generate_hex_checksum g = (inr (join cs), g')
    ∧ length cs = 64%nat
    ∧ Forall (λ c, c ∈ chars hex_alphabet) cs.
Proof.
  destruct (choices_ok hex_alphabet 64 g) as (cs & g' & Hcs & Hlen & Hall);
    [discriminate |].
  exists cs, g'. unfold generate_hex_checksum, bind. now rewrite Hcs.
Qed.

(** C4: [generate_hex_checksum] returns, for every random state, a string
    of exactly 64 characters, all of them from [0123456789abcdef]; it never
    raises. *)
Theorem generate_hex_checksum_spec (g : rng) :
  ∃ checksum g',
    generate_hex_checksum g = (inr checksum, g')
    ∧ String.length checksum = 64%nat
    ∧ ∀ c, c ∈ chars checksum -> c ∈ chars "0123456789abcdef".
Proof.
  destruct (generate_hex_checksum_ok g) as (cs & g' & _ & Hgen & Hlen & Hall).
  exists (join cs), g'. split; [exact Hgen |]. split.
  - now rewrite join_length.
  - intros c Hc. rewrite chars_join in Hc.
    rewrite Forall_forall in Hall. now apply Hall.
Qed.

Lemma display_alphabet_chars (c : ascii) :
  c ∈ chars display_alphabet -> c ∈ display_chars.
Proof.
  intros H. apply list_elem_of_In in H. apply list_elem_of_In.
  vm_compute in H. vm_compute. tauto.
Qed.

Lemma generate_display_ok (g : rng) :
  ∃ (sampled : Z) (g1 : rng) (drawn_chars : list ascii) (g' : rng),
    randint 10 120 g = (inr sampled, g1)
    ∧ 10 <= sampled <= 120
    ∧ choices display_alphabet sampled g1 = (inr drawn_chars, g')
    ∧ Z.of_nat (length drawn_chars) = sampled
    ∧ (∀ c, c ∈ drawn_chars -> c ∈ display_chars)
    ∧ generate_display g = (inr (strip (join drawn_chars)), g').
Proof.
  destruct (randint_ok 10 120 g) as (n & Hn & Hrange); [lia |].
  destruct (choices_ok display_alphabet n (advance g))
    as (cs & g' & Hcs & Hlen & Hall); [discriminate |].
  rewrite Forall_forall in Hall.
  exists n, (advance g), cs, g'.
  split; [exact Hn |]. split; [exact Hrange |]. split; [exact Hcs |].
  split; [lia |].
  split; [intros c Hc; apply display_alphabet_chars; now apply Hall |].
  unfold generate_display, bind. now rewrite Hn, Hcs.
Qed.


(** ** The batch *)

Lemma range_length (n : Z) : length (range n) = Z.to_nat n.
Proof. unfold range. now rewrite length_fmap, length_seq. Qed.

Lemma generate_asset_payload_ok (extra_size : string) (g : rng) :
  ∃ a g', generate_asset_payload extra_size g = (inr a, g')
          ∧ asset_shape extra_size a.
Proof.
  destruct (generate_hex_checksum_ok g) as (hs & g1 & _ & Hc & _).
  destruct (generate_display_ok g1) as (n & g2 & cs & g' & _ & _ & _ & _ & _ & Hd).
  eexists _, g'. unfold generate_asset_payload, bind. rewrite Hc, Hd.
  split; [reflexivity |]. now exists (join hs), (strip (join cs)).
Qed.

Lemma comprehension_generated (extra_size : string) (xs : list Z) (g : rng) :
  ∃ assets g',
    comprehension (λ _, generate_asset_payload extra_size) xs g
    = (inr assets, g')
    ∧ length assets = length xs
    ∧ generated extra_size g assets g'
    ∧ Forall (asset_shape extra_size) assets.
Proof.
  revert g. induction xs as [|x xs IH]; intros g; simpl.
  - exists [], g. repeat split; constructor.
  - destruct (generate_asset_payload_ok extra_size g) as (a & g1 & Ha & Hshape).
    destruct (IH g1) as (assets & g' & Hrest & Hlen & Hgen & Hall).
    exists (a :: assets), g'. unfold bind. rewrite Ha, Hrest. simpl.
    repeat split; [lia | econstructor; eassumption | now constructor].
Qed.

Lemma generate_batch_payload_ok (num_assets : Z) (extra_size : string) (g : rng) :
  ∃ assets g',
    generate_batch_payload num_assets extra_size g
    = (inr (PDict [("assets", PList assets)]), g')
    ∧ length assets = Z.to_nat num_assets
    ∧ generated extra_size g assets g'
    ∧ Forall (asset_shape extra_size) assets.
Proof.
  destruct (comprehension_generated extra_size (range num_assets) g)
    as (assets & g' & Hrun & Hlen & Hgen & Hall).
  exists assets, g'. unfold generate_batch_payload, bind. rewrite Hrun.
  rewrite range_length in Hlen. easy.
Qed.



(** ** The extra metadata *)

Lemma generate_extra_else (size : string) :
  size ≠ "none" -> size ≠ "small" -> size ≠ "medium" -> size ≠ "large" ->
  generate_extra size = PDict [].
Proof.
  intros H1 H2 H3 H4. unfold generate_extra.
  repeat match goal with
         | |- context [String.eqb ?a ?b] =>
             destruct (String.eqb_spec a b); [congruence |]
         end.
  reflexivity.
Qed.

(** C9: for a selector outside the four tiers [generate_extra] does not
    fail: it reaches its last [return] and gives an empty dict, the value
    it gives for [none]. *)
Theorem generate_extra_unknown_tier (size : string) :
  size ∉ extra_sizes ->
  generate_extra size = PDict []
  ∧ generate_extra size = generate_extra "none".
Proof.
  intros Hout.
  assert (generate_extra size = PDict []) as ->; [| easy].
  apply generate_extra_else; intros ->; apply Hout; unfold extra_sizes;
    set_solver.
Qed.

Lemma generate_extra_unknown_tier_witness :
  ("bogus" ∉ extra_sizes)
  ∧ generate_extra "bogus" = PDict []
  ∧ generate_extra "bogus" = generate_extra "none".
Proof.
  assert (Hout : "bogus" ∉ extra_sizes)
    by (apply (bool_decide_unpack _); vm_compute; exact I).
  split; [exact Hout |].
  exact (generate_extra_unknown_tier "bogus" Hout).
Defined.

Lemma all_chars_repeat (c : ascii) (n : nat) :
  all_chars c (str_repeat (String c "") n)
  ∧ String.length (str_repeat (String c "") n) = n.
Proof.
  induction n as [|n [IH1 IH2]]; simpl; [split; [constructor | reflexivity] |].
  split; [now constructor | now f_equal].
Qed.

(** C2: the fixed shapes of [generate_extra]: [none] is the empty dict;
    [small] is exactly the three keys [source], [version], [tags] with
    their literal values; the [description] of [medium] is 200 times [A];
    for [large], [metadata.config] has exactly the 50 entries [key_i] to
    [value_i] for [i] from 0 to 49 in that order, [notes] is 300 times [C]
    and [description] is 500 times [B]. *)
Theorem generate_extra_shapes :
  generate_extra "none" = PDict []
  ∧ generate_extra "small"
    = PDict [ ("source", PStr "test_script"); ("version", PStr "1.0");
              ("tags", PList [PStr "test"; PStr "generated"]) ]
  ∧ (∃ d, dict_get "description" (generate_extra "medium") = Some (PStr d)
          ∧ String.length d = 200%nat ∧ all_chars "A" d)
  ∧ (∃ md cfg,
       dict_get "metadata" (generate_extra "large") = Some md
       ∧ dict_get "config" md = Some (PDict cfg)
       ∧ length cfg = 50%nat
       ∧ (∀ i : nat, (i < 50)%nat ->
            cfg !! i = Some ("key_" +:+ str_int (Z.of_nat i),
                             PStr ("value_" +:+ str_int (Z.of_nat i))))
       ∧ cfg !! 0%nat = Some ("key_0", PStr "value_0")
       ∧ cfg !! 49%nat = Some ("key_49", PStr "value_49"))
  ∧ (∃ n, dict_get "notes" (generate_extra "large") = Some (PStr n)
          ∧ String.length n = 300%nat ∧ all_chars "C" n)
  ∧ (∃ d, dict_get "description" (generate_extra "large") = Some (PStr d)
          ∧ String.length d = 500%nat ∧ all_chars "B" d).
Proof.
  split; [reflexivity |]. split; [reflexivity |].
  split.
  { exists (str_repeat "A" 200). split; [reflexivity |].
    destruct (all_chars_repeat "A" 200). easy. }
  split.
  { eexists _, _. split; [reflexivity |]. split; [reflexivity |].
    split; [reflexivity |]. split; [| split; reflexivity].
    intros i Hi. do 50 (destruct i as [|i]; [reflexivity |]). lia. }
  split.
  { exists (str_repeat "C" 300). split; [reflexivity |].
    destruct (all_chars_repeat "C" 300). easy. }
  exists (str_repeat "B" 500). split; [reflexivity |].
  destruct (all_chars_repeat "B" 500). easy.
Qed.

(** The [tags] of the large tier, as the code builds them. *)
Lemma generate_extra_large_tags_value :
  dict_get "tags" (generate_extra "large")
  = Some (PList (PStr <$> (["test"; "generated"; "large"] ++ tag_names))).
Proof. reflexivity. Qed.

(** C3, as stated, fails: the [tags] of the large tier are not [test],
    [generated] followed by [tag_0] to [tag_19]; the list has 23 elements,
    the third being [large]. *)
Lemma generate_extra_large_tags_not_small_plus_20 :
  dict_get "tags" (generate_extra "large")
  ≠ Some (PList (PStr <$> (["test"; "generated"] ++ tag_names))).
Proof. rewrite generate_extra_large_tags_value. discriminate. Qed.

(** C3, amended: for tier [large] the [tags] list is [test], [generated],
    [large] followed by [tag_0] to [tag_19], 23 elements and no other. *)
Theorem generate_extra_large_tags :
  ∃ tags,
    dict_get "tags" (generate_extra "large") = Some (PList tags)
    ∧ tags = PStr <$> (["test"; "generated"; "large"] ++ tag_names)
    ∧ length tags = 23%nat
    ∧ ∀ i : nat, (i < 20)%nat ->
        tags !! (3 + i)%nat = Some (PStr ("tag_" +:+ str_int (Z.of_nat i))).
Proof.
  eexists. split; [apply generate_extra_large_tags_value |].
  split; [reflexivity |]. split; [reflexivity |].
  intros i Hi. do 20 (destruct i as [|i]; [reflexivity |]). lia.
Qed.

(** ** The script *)

Lemma py_int_raises (text : string) (e : exn) :
  py_int text = inl e -> e = ValueError.
Proof.
  unfold py_int.
  destruct (match strip text with
            | EmptyString => _
            | String c s' => _
            end) as [negative body].
  destruct (4300 <? count_digits body)%nat; [congruence |].
  destruct (int_digits 0 false body); congruence.
Qed.








(** ** Formatting sizes *)

Lemma float_of_int_exact (b : Z) :
  0 <= b < 2 ^ 53 -> float_of_int b = inr (Float b 0).
Proof.
  intros Hb. unfold float_of_int.
  destruct (Z.leb_spec (Z.log2 (Z.abs b) - 52) 0) as [_ | He]; [reflexivity |].
  exfalso. rewrite Z.abs_eq in He by lia.
  assert (Z.log2 b < 53); [| lia].
  destruct (Z.eq_dec b 0) as [-> | Hnz]; [simpl; lia |].
  apply Z.log2_lt_pow2; lia.
Qed.

Lemma float_of_int_rounds (b : Z) :
  2 ^ 53 <= b < 2 ^ 64 ->
  ∃ x, float_of_int b = inr (Float x 0)
       ∧ 2 ^ 53 <= x ∧ Z.abs (x - b) * 2 ^ 53 <= b.
Proof.
  intros Hb. unfold float_of_int.
  rewrite Z.abs_eq by lia.
  assert (Hlo : 53 <= Z.log2 b).
  { change 53 with (Z.log2 (2 ^ 53)). apply Z.log2_le_mono. lia. }
  assert (Hhi : Z.log2 b < 64) by (apply Z.log2_lt_pow2; lia).
  destruct (Z.log2_spec b) as [Hl Hu]; [lia |].
  set (e := Z.log2 b - 52) in *.
  replace (Z.log2 b) with (52 + e) in Hl, Hu by lia.
  replace (Z.succ (52 + e)) with (53 + e) in Hu by lia.
  rewrite Z.pow_add_r in Hl, Hu by lia.
  destruct (Z.leb_spec e 0) as [He | He]; [lia |].
  assert (Hhalf : 2 ^ e = 2 * 2 ^ (e - 1)).
  { replace e with (1 + (e - 1)) at 1 by lia. rewrite Z.pow_add_r by lia. reflexivity. }
  assert (Hpos : 0 < 2 ^ (e - 1)) by (apply Z.pow_pos_nonneg; lia).
  assert (Hsmall : 2 ^ e <= 2 ^ 11) by (apply Z.pow_le_mono_r; lia).
  assert (Hbig : 2 ^ 65 < 2 ^ 1024) by (apply Z.pow_lt_mono_r; lia).
  set (big := 2 ^ 1024) in *. clearbody big.
  pose proof (Z.div_mod b (2 ^ e) ltac:(lia)) as Hdm.
  pose proof (Z.mod_pos_bound b (2 ^ e) ltac:(lia)) as Hr.
  set (q := b / 2 ^ e) in *. set (r := b mod 2 ^ e) in *.
  set (P := 2 ^ e) in *. set (half := 2 ^ (e - 1)) in *.
  assert (Hq : 2 ^ 52 <= q < 2 ^ 53) by nia.
  replace (Z.sgn b) with 1 by lia.
  set (m := if (r <? half) || (r =? half) && Z.even q then q else q + 1).
  assert (Hm : (m = q ∧ r <= half) ∨ (m = q + 1 ∧ half <= r)).
  { unfold m. destruct (Z.ltb_spec r half); simpl; [left; lia |].
    destruct (Z.eqb_spec r half); simpl; [| right; lia].
    destruct (Z.even q); [left | right]; lia. }
  clearbody m.
  assert (Hv : m * P <= 2 ^ 65) by nia.
  destruct (Z.leb_spec big (m * P)); [lia |].
  eexists. split; [reflexivity |]. split; [nia |].
  rewrite Z.mul_1_l.
  assert (Z.abs (m * P - b) <= half) by nia.
  nia.
Qed.

Lemma round_half_even_nearest (n d : Z) :
  0 <= n -> 0 < d ->
  0 <= round_half_even n d ∧ Z.abs (n - round_half_even n d * d) * 2 <= d.
Proof.
  intros Hn Hd. unfold round_half_even.
  pose proof (Z.div_mod n d ltac:(lia)) as Hdm.
  pose proof (Z.mod_pos_bound n d Hd) as Hr.
  assert (Hq : 0 <= n / d) by (apply Z.div_pos; lia).
  set (q := n / d) in *. set (r := n mod d) in *.
  destruct (Z.ltb_spec (2 * r) d); [split; nia |].
  destruct (Z.ltb_spec d (2 * r)); [split; nia |].
  destruct (Z.even q); split; nia.
Qed.

(** The loop of [format_size] on a count whose float value is [x]: the
    unit of index [k] is reached after [k] divisions by 1024. *)
Lemma format_size_units (b x : Z) :
  0 <= b ->
  float_of_int b = inr (Float x 0) ->
  (b < 2 ^ 53 -> x = b) ->
  (2 ^ 53 <= b -> 2 ^ 53 <= x) ->
  ∃ k : nat,
    (k <= 4)%nat
    ∧ ((k < 4)%nat -> x < 1024 ^ (Z.of_nat k + 1))
    ∧ ((0 < k)%nat -> 1024 ^ Z.of_nat k <= x)
    ∧ format_size (NInt b)
      = inr (format_float_2f (Float x (10 * k))
             +:+ " " +:+ default "" (size_units !! k)).
Proof.
  intros Hb Hx Hsmall Hlarge.
  assert (Hbx : b < 1024 ^ 4 -> x = b) by lia.
  assert (Hxb : 1024 ^ 4 <= b -> 1024 ^ 4 <= x) by lia.
  unfold format_size, format_size_loop, lt_1024, truediv_1024, format_2f.
  rewrite Hx. simpl mbind. simpl mret. cbv beta. simpl fnum. simpl fexp.
  change (1024 * 2 ^ Z.of_nat 10) with (1024 ^ 2).
  change (1024 * 2 ^ Z.of_nat 20) with (1024 ^ 3).
  change (1024 * 2 ^ Z.of_nat 30) with (1024 ^ 4).
  destruct (Z.ltb_spec b 1024).
  { exists 0%nat. split; [lia |]. split; [lia |]. split; [lia |]. reflexivity. }
  destruct (Z.ltb_spec x (1024 ^ 2)).
  { exists 1%nat. split; [lia |]. split; [lia |]. split; [lia |]. reflexivity. }
  destruct (Z.ltb_spec x (1024 ^ 3)).
  { exists 2%nat. split; [lia |]. split; [lia |]. split; [lia |]. reflexivity. }
  destruct (Z.ltb_spec x (1024 ^ 4)).
  { exists 3%nat. split; [lia |]. split; [lia |]. split; [lia |]. reflexivity. }
  exists 4%nat. split; [lia |]. split; [lia |]. split; [lia |]. reflexivity.
Qed.

Lemma float_of_int_byte_count (b : Z) :
  0 <= b <= sys_maxsize ->
  ∃ x, float_of_int b = inr (Float x 0)
       ∧ (b < 2 ^ 53 -> x = b)
       ∧ (2 ^ 53 <= b -> 2 ^ 53 <= x)
       ∧ Z.abs (x - b) * 2 ^ 53 <= b.
Proof.
  unfold sys_maxsize. intros Hb.
  destruct (Z.lt_ge_cases b (2 ^ 53)) as [Hlt | Hge].
  - exists b. split; [apply float_of_int_exact; lia |].
    repeat split; lia.
  - destruct (float_of_int_rounds b) as (x & Hx & Hlo & Hnear); [lia |].
    exists x. repeat split; try assumption; lia.
Qed.

(** C8, amended: for every byte count [b] (a length, from 0 to
    [sys.maxsize]) [format_size] returns a text: the magnitude, rounded to
    the nearest hundredth and written with two decimals, a space and a unit
    of B, KB, MB, GB, TB.  The magnitude is [x / 1024 ^ k] for the unit of
    index [k], [x] being the count as a float (the count itself below
    [2 ^ 53], the nearest binary64 value above).  The unit is the first
    whose magnitude, before rounding, is under 1024, and TB when there is
    none: below [1024 ^ 4] the magnitude is under 1024, from [1024 ^ 4] on
    the unit is TB, and a unit above B is only chosen when the magnitude
    reaches 1. *)
Theorem format_size_spec (b : Z) :
  0 <= b <= sys_maxsize ->
  ∃ (x : Z) (k : nat) (unit : string) (h : Z),
    float_of_int b = inr (Float x 0)
    ∧ (b < 2 ^ 53 -> x = b)
    ∧ Z.abs (x - b) * 2 ^ 53 <= b
    ∧ size_units !! k = Some unit
    ∧ (b < 1024 ^ 4 -> x = b ∧ b < 1024 * 1024 ^ Z.of_nat k)
    ∧ (1024 ^ 4 <= b -> unit = "TB")
    ∧ ((0 < k)%nat -> 1024 ^ Z.of_nat k <= x)
    ∧ 0 <= h
    ∧ Z.abs (100 * x - h * 1024 ^ Z.of_nat k) * 2 <= 1024 ^ Z.of_nat k
    ∧ format_size (NInt b)
      = inr (str_int (h / 100) +:+ "."
             +:+ str_int (h mod 100 / 10) +:+ str_int (h mod 100 mod 10)
             +:+ " " +:+ unit).
Proof.
  intros Hb.
  destruct (float_of_int_byte_count b Hb) as (x & Hx & Hsmall & Hlarge & Hnear).
  destruct (format_size_units b x ltac:(lia) Hx Hsmall Hlarge)
    as (k & Hk & Hbelow & Habove & Hfmt).
  assert (Hx0 : 0 <= x) by lia.
  assert (Hscale : 2 ^ Z.of_nat (10 * k) = 1024 ^ Z.of_nat k).
  { rewrite Nat2Z.inj_mul, Z.pow_mul_r by lia. reflexivity. }
  assert (Hpos : 0 < 1024 ^ Z.of_nat k) by (apply Z.pow_pos_nonneg; lia).
  destruct (round_half_even_nearest (100 * x) (1024 ^ Z.of_nat k))
    as [Hh0 Hh]; [lia | lia |].
  assert (Hunit : ∃ unit, size_units !! k = Some unit
                          ∧ (k = 4%nat -> unit = "TB")).
  { do 5 (destruct k as [|k]; [eexists; split; [reflexivity | try lia; reflexivity] |]).
    lia. }
  destruct Hunit as (unit & Hunit & Htb).
  exists x, k, unit, (round_half_even (100 * x) (1024 ^ Z.of_nat k)).
  split; [exact Hx |]. split; [exact Hsmall |]. split; [exact Hnear |].
  split; [exact Hunit |].
  split.
  { intros Hlt. assert (x = b) as -> by lia. split; [reflexivity |].
    destruct (Nat.eq_dec k 4%nat) as [-> | Hne].
    - specialize (Habove ltac:(lia)). change (Z.of_nat 4) with 4 in *. lia.
    - specialize (Hbelow ltac:(lia)).
      rewrite Z.pow_add_r, Z.pow_1_r in Hbelow by lia. lia. }
  split.
  { intros Hge. apply Htb.
    destruct (Nat.eq_dec k 4%nat) as [-> | Hne]; [reflexivity |].
    specialize (Hbelow ltac:(lia)).
    assert (1024 ^ (Z.of_nat k + 1) <= 1024 ^ 4)
      by (apply Z.pow_le_mono_r; lia).
    lia. }
  split; [exact Habove |]. split; [exact Hh0 |]. split; [exact Hh |].
  rewrite Hfmt, Hunit. unfold format_float_2f, render_hundredths, two_digits.
  cbn [fnum fexp]. rewrite Hscale.
  destruct (Z.ltb_spec x 0); [lia |].
  rewrite Z.abs_eq by lia. simpl default.
  rewrite append_nil_l, !append_assoc. reflexivity.
Qed.

Lemma format_size_spec_witness :
  0 <= 1536 <= sys_maxsize
  ∧ ∃ text unit, format_size (NInt 1536) = inr (text +:+ " " +:+ unit)
                 ∧ unit ∈ size_units.
Proof.
  assert (Hb : 0 <= 1536 <= sys_maxsize) by (unfold sys_maxsize; lia).
  split; [exact Hb |].
  destruct (format_size_spec 1536 Hb)
    as (x & k & unit & h & _ & _ & _ & Hunit & _ & _ & _ & _ & _ & Hfmt).
  eexists _, unit. split.
  - rewrite Hfmt. rewrite <- !append_assoc. reflexivity.
  - apply list_elem_of_lookup. now exists k.
Defined.

(** [format_size] on a few counts: a tie rounds to even, and a magnitude
    just under 1024 is displayed as 1024.00. *)
Example format_size_examples :
  map (λ b, format_size (NInt b))
      [0; 5; 1023; 1024; 1152; 1536; 1048575; 1048576; 123456789; 2 ^ 40;
       2 ^ 63 - 1]
  = map inr
      [ "0.00 B"; "5.00 B"; "1023.00 B"; "1.00 KB"; "1.12 KB"; "1.50 KB";
        "1024.00 KB"; "1.00 MB"; "117.74 MB"; "1.00 TB"; "8388608.00 TB" ].
Proof. reflexivity. Qed.

Lemma prefix_append (s t : string) : String.prefix s (s +:+ t) = true.
Proof.
  induction s as [|c s IH]; [destruct t; reflexivity |].
  rewrite append_cons. simpl. destruct (ascii_dec c c); [exact IH | congruence].
Qed.

Lemma range_elem (n i : Z) : 0 <= i < n -> i ∈ range n.
Proof.
  intros Hi. unfold range. apply list_elem_of_fmap.
  exists (Z.to_nat i). split; [lia |]. apply elem_of_seq. lia.
Qed.

(** C8, as stated, fails: 1048575 is below [1024 ^ 4], yet [format_size]
    displays it as [1024.00 KB], a magnitude that is not below 1024, where
    MB would have given one. *)
Lemma format_size_displays_1024 :
  0 <= 1048575 < 1024 ^ 4
  ∧ format_size (NInt 1048575) = inr "1024.00 KB"
  ∧ ¬ ∃ (h : Z) (unit : string),
        0 <= h < 1024 * 100
        ∧ format_size (NInt 1048575)
          = inr (render_hundredths h +:+ " " +:+ unit).
Proof.
  split; [lia |]. split; [reflexivity |].
  intros (h & unit & Hh & Heq).
  assert (Hout : format_size (NInt 1048575) = inr "1024.00 KB") by reflexivity.
  rewrite Hout in Heq. injection Heq as Heq.
  unfold render_hundredths in Heq. rewrite !append_assoc in Heq.
  assert (Hpre : String.prefix (str_int (h / 100) +:+ ".") "1024.00 KB" = true).
  { rewrite Heq. rewrite <- append_assoc. apply prefix_append. }
  assert (Hall : forallb (λ a, negb (String.prefix (str_int a +:+ ".") "1024.00 KB"))
                   (range 1024) = true) by (vm_compute; reflexivity).
  rewrite forallb_forall in Hall.
  specialize (Hall (h / 100)). rewrite Hpre in Hall.
  assert (Hin : h / 100 ∈ range 1024).
  { apply range_elem. split; [apply Z.div_pos; lia |].
    apply Z.div_lt_upper_bound; lia. }
  apply list_elem_of_In in Hin. specialize (Hall Hin). discriminate.
Qed.

(** ** The JSON round trip *)

(** *** Strings *)



(** *** Whitespace *)






(** *** One step of each decoder loop *)








(** *** Dicts rebuilt from their items *)






(** *** The loops on encoded items *)








(** *** Every value decodes *)

Lemma iterencode_list (level : nat) (x : pyval) (xs : list pyval) (rest : string) :
  iterencode (PList (x :: xs)) level +:+ rest
  = String "[" (newline_indent (S level)
                +:+ (encode_items (S level) (x :: xs)
                     +:+ (newline_indent level +:+ String "]" rest))).
Proof.
  change (iterencode (PList (x :: xs)) level)
    with ("[" +:+ newline_indent (S level) +:+ encode_items (S level) (x :: xs)
          +:+ newline_indent level +:+ "]").
  rewrite !append_assoc. reflexivity.
Qed.

Lemma iterencode_dict (level : nat) (kv : string * pyval)
    (items : list (string * pyval)) (rest : string) :
  iterencode (PDict (kv :: items)) level +:+ rest
  = String "{" (newline_indent (S level)
                +:+ (encode_entries (S level) (kv :: items)
                     +:+ (newline_indent level +:+ String "}" rest))).
Proof.
  change (iterencode (PDict (kv :: items)) level)
    with ("{" +:+ newline_indent (S level)
          +:+ encode_entries (S level) (kv :: items)
          +:+ newline_indent level +:+ "}").
  rewrite !append_assoc. reflexivity.
Qed.


(** *** The text is at least as long as the fuel the value needs *)

Lemma join_str_length (sep : string) (parts : list string) :
  (list_sum (map String.length parts) <= String.length (join_str sep parts))%nat.
Proof.
  induction parts as [|p [|q parts] IH]; simpl in *; [lia | lia |].
  rewrite !length_append. lia.
Qed.






(** *** The generated batch and the file *)









(** * Further properties *)

(** ** The three ways [main] ends *)

Lemma main_count_error (argv : list string) (w : world) (e : exn) :
  count_of argv = inl e -> main argv w = (inl e, w).
Proof.
  unfold count_of, main. intros Hc.
  destruct (argv !! 1%nat) as [arg |]; [| discriminate].
  unfold bind at 1. unfold lift_result. now rewrite Hc.
Qed.

Lemma main_first (argv : list string) (w : world) (N : Z) :
  count_of argv = inr N ->
  match argv !! 1%nat with
  | Some arg => lift_result (py_int arg)
  | None => ret 1000
  end w = (inr N, w).
Proof.
  unfold count_of. destruct (argv !! 1%nat); unfold lift_result, ret.
  - now intros ->.
  - now intros [= <-].
Qed.

Lemma main_tier_error (argv : list string) (w : world) (N : Z) :
  count_of argv = inr N ->
  tier_of argv ∉ extra_sizes ->
  main argv w
  = (inl (SystemExit 1),
     World (fs w)
           (stdout w ++ [ "Invalid extra_size: " +:+ tier_of argv;
                          "Valid options: none, small, medium, large" ])
           (random w)).
Proof.
  intros Hc Hout. unfold main. fold (tier_of argv).
  unfold bind at 1. rewrite (main_first argv w N Hc).
  rewrite (bool_decide_false _ Hout).
  unfold bind, print, raise; simpl. now rewrite <- (assoc_L (++)).
Qed.

Lemma main_generated (argv : list string) (w : world) (N : Z)
    (batch : pyval) (g' : rng) :
  count_of argv = inr N ->
  tier_of argv ∈ extra_sizes ->
  generate_batch_payload N (tier_of argv) (random w) = (inr batch, g') ->
  main argv w
  = match format_size (NInt (byte_size (json_dumps batch))) with
    | inr formatted =>
        (inr tt,
         World (<[asset_file_name N (tier_of argv) := json_dumps batch]> (fs w))
               (stdout w ++ progress_line N (tier_of argv)
                  :: report_lines N (tier_of argv) formatted)
               g')
    | inl e =>
        (inl e,
         World (<[asset_file_name N (tier_of argv) := json_dumps batch]> (fs w))
               (stdout w ++ [ progress_line N (tier_of argv);
                              generated_line N (tier_of argv) ])
               g')
    end.
Proof.
  intros Hc Hin Hgen. unfold main. fold (tier_of argv).
  unfold bind at 1. rewrite (main_first argv w N Hc).
  rewrite (bool_decide_true _ Hin).
  unfold bind, ret, print, write_file, with_random, lift_result; simpl.
  rewrite Hgen. simpl. fold (byte_size (json_dumps batch)).
  destruct (format_size _) as [e | formatted];
    unfold report_lines, generated_line, progress_line, asset_file_name;
    repeat rewrite <- (assoc_L (++)); reflexivity.
Qed.

(** ** What the command line decides *)

(** When the count argument does not parse, the script ends with status 1
    and has done nothing: no line printed, no file written, no random
    draw, whatever the tier argument is. *)
Theorem run_script_count_error
    (argv : list string) (arg : string) (e : exn) (w : world) :
  argv !! 1%nat = Some arg ->
  py_int arg = inl e ->
  run_script argv w = (1, w).
Proof.
  intros Harg Hparse.
  assert (Hc : count_of argv = inl e) by (unfold count_of; now rewrite Harg).
  unfold run_script. rewrite (main_count_error argv w e Hc).
  apply py_int_raises in Hparse as ->. reflexivity.
Qed.

Lemma run_script_count_error_witness :
  ["generate_assets_payload.py"; "1.5"; "bogus"] !! 1%nat = Some "1.5"
  ∧ py_int "1.5" = inl ValueError
  ∧ run_script ["generate_assets_payload.py"; "1.5"; "bogus"]
               (World ∅ [] (constant_rng 3))
    = (1, World ∅ [] (constant_rng 3)).
Proof.
  split; [reflexivity |]. split; [reflexivity |].
  apply (run_script_count_error _ "1.5" ValueError); reflexivity.
Defined.




(** The script only appends to the standard output and changes at most
    one file: when it changes the file system at all, the count parsed, the
    tier is one of the four, and the one file set is
    [assets_<count>_<tier>.json], holding the text of the generated
    batch.  A file with no such name keeps its content, or its absence. *)
Theorem run_script_touches_one_file (argv : list string) (w : world) :
  (∃ out, stdout (run_script argv w).2 = stdout w ++ out)
  ∧ (fs (run_script argv w).2 = fs w
     ∨ ∃ (N : Z) (batch : pyval) (g' : rng),
         count_of argv = inr N
         ∧ tier_of argv ∈ extra_sizes
         ∧ generate_batch_payload N (tier_of argv) (random w) = (inr batch, g')
         ∧ fs (run_script argv w).2
           = <[asset_file_name N (tier_of argv) := json_dumps batch]> (fs w))
  ∧ ∀ name : string,
      (∀ (N : Z) (tier : string),
         tier ∈ extra_sizes -> name ≠ asset_file_name N tier) ->
      fs (run_script argv w).2 !! name = fs w !! name.
Proof.
  unfold run_script.
  destruct (count_of argv) as [e | N] eqn:Hc.
  { rewrite (main_count_error argv w e Hc). simpl.
    split; [exists []; now rewrite app_nil_r |]. split; [now left | easy]. }
  destruct (decide (tier_of argv ∈ extra_sizes)) as [Hin | Hout].
  2: { rewrite (main_tier_error argv w N Hc Hout). simpl.
       split; [eexists; reflexivity |]. split; [now left | easy]. }
  destruct (generate_batch_payload_ok N (tier_of argv) (random w))
    as (assets & g' & Hgen & _).
  rewrite (main_generated argv w N _ g' Hc Hin Hgen).
  assert (Hother : ∀ name : string,
            (∀ (N : Z) (tier : string),
               tier ∈ extra_sizes -> name ≠ asset_file_name N tier) ->
            <[asset_file_name N (tier_of argv) :=
                json_dumps (PDict [("assets", PList assets)])]> (fs w) !! name
            = fs w !! name).
  { intros name Hname. apply lookup_insert_ne.
    intros Heq. now apply (Hname N (tier_of argv) Hin). }
  destruct (format_size _) as [e | formatted]; simpl;
    (split; [eexists; reflexivity |]);
    (split; [right; exists N, (PDict [("assets", PList assets)]), g'; easy
            | exact Hother]).
Qed.



(** ** Display names and records *)

Lemma chars_append (a b : string) : chars (a +:+ b) = chars a ++ chars b.
Proof.
  induction a as [|x a IH]; [reflexivity |].
  rewrite append_cons. simpl. f_equal. exact IH.
Qed.

Lemma lstrip_split (s : string) :
  ∃ lead, s = lead +:+ lstrip s ∧ all_space lead.
Proof.
  induction s as [|c s (lead & Hs & Hlead)]; simpl.
  - exists "". split; [reflexivity | constructor].
  - destruct (isspace c) eqn:Hc.
    + exists (String c lead). rewrite append_cons, <- Hs.
      split; [reflexivity | now constructor].
    + exists "". split; [reflexivity | constructor].
Qed.

Lemma rstrip_split (s : string) :
  ∃ trail, s = rstrip s +:+ trail ∧ all_space trail.
Proof.
  induction s as [|c s (trail & Hs & Htrail)]; simpl.
  - exists "". split; [reflexivity | constructor].
  - destruct (rstrip s) as [|y r] eqn:E.
    + change ("" +:+ trail) with trail in Hs. subst trail.
      destruct (isspace c) eqn:Hc.
      * exists (String c s). split; [reflexivity |].
        constructor; [exact Hc | exact Htrail].
      * exists s. split; [reflexivity | exact Htrail].
    + exists trail. rewrite append_cons. now rewrite <- Hs.
Qed.

Lemma strip_split (s : string) :
  ∃ lead trail, s = lead +:+ strip s +:+ trail ∧ all_space lead ∧ all_space trail.
Proof.
  destruct (lstrip_split s) as (lead & Hs & Hlead).
  destruct (rstrip_split (lstrip s)) as (trail & Hr & Htrail).
  exists lead, trail. unfold strip. now rewrite <- Hr, <- Hs.
Qed.

Lemma lstrip_all_space (s : string) : all_space s -> lstrip s = "".
Proof.
  induction s as [|c s IH]; [reflexivity |].
  intros H. apply Forall_cons in H as [Hc Hs]. simpl. rewrite Hc. now apply IH.
Qed.

Lemma strip_empty (s : string) : strip s = "" <-> all_space s.
Proof.
  split.
  - intros H. destruct (strip_split s) as (lead & trail & Hs & Hlead & Htrail).
    rewrite H, append_nil_l in Hs. rewrite Hs. unfold all_space.
    rewrite chars_append. now apply Forall_app.
  - intros H. unfold strip. now rewrite lstrip_all_space.
Qed.

(** Among the characters of a display name only the space is whitespace. *)
Lemma display_chars_space (c : ascii) :
  c ∈ display_chars -> isspace c = true -> c = " "%char.
Proof.
  intros Hin. apply list_elem_of_In in Hin. vm_compute in Hin.
  repeat (destruct Hin as [<- | Hin]; [vm_compute; congruence |]).
  destruct Hin.
Qed.

Lemma all_space_display (s : string) :
  (∀ c, c ∈ chars s -> c ∈ display_chars) -> all_space s -> all_chars " " s.
Proof.
  unfold all_space, all_chars. intros Hin Hs.
  rewrite Forall_forall in *. intros c Hc.
  apply display_chars_space; auto.
Qed.

(** What [generate_display] returns is the text it drew without its
    leading and trailing spaces, and nothing else is removed or changed:
    the drawn text is some spaces, the result, some spaces.  The result is
    empty exactly when every drawn character is a space. *)
Theorem generate_display_trims (g : rng) :
  ∃ (sampled : Z) (g1 : rng) (drawn : list ascii) (g' : rng)
    (lead display trail : string),
    randint 10 120 g = (inr sampled, g1)
    ∧ choices display_alphabet sampled g1 = (inr drawn, g')
    ∧ generate_display g = (inr display, g')
    ∧ join drawn = lead +:+ display +:+ trail
    ∧ all_chars " " lead
    ∧ all_chars " " trail
    ∧ (display = "" <-> Forall (λ c, c = " "%char) drawn).
Proof.
  destruct (generate_display_ok g)
    as (n & g1 & cs & g' & Hn & _ & Hcs & _ & Hall & Hgen).
  destruct (strip_split (join cs)) as (lead & trail & Hs & Hlead & Htrail).
  assert (Hsub : ∀ c, c ∈ chars (join cs) -> c ∈ display_chars)
    by (intros c; rewrite chars_join; apply Hall).
  assert (Hparts : chars (join cs)
                   = chars lead ++ chars (strip (join cs)) ++ chars trail)
    by (rewrite Hs at 1; now rewrite !chars_append).
  exists n, g1, cs, g', lead, (strip (join cs)), trail.
  split; [exact Hn |]. split; [exact Hcs |]. split; [exact Hgen |].
  split; [exact Hs |]. split.
  { apply all_space_display; [| exact Hlead].
    intros c Hc. apply Hsub. rewrite Hparts. apply elem_of_app. now left. }
  split.
  { apply all_space_display; [| exact Htrail].
    intros c Hc. apply Hsub. rewrite Hparts. rewrite !elem_of_app. auto. }
  rewrite strip_empty. unfold all_space. rewrite chars_join.
  rewrite !Forall_forall. split.
  - intros H c Hc. apply display_chars_space; auto.
  - intros H c Hc. now rewrite (H c Hc).
Qed.

Lemma generate_asset_payload_full (extra_size : string) (g : rng) :
  ∃ a g', generate_asset_payload extra_size g = (inr a, g')
          ∧ asset_record extra_size a.
Proof.
  destruct (generate_hex_checksum_ok g) as (hs & g1 & _ & Hc & Hlen & Hhex).
  destruct (generate_display_ok g1)
    as (n & g2 & cs & g' & _ & Hrange & _ & Hn & Hall & Hd).
  eexists _, g'. unfold generate_asset_payload, bind. rewrite Hc, Hd.
  split; [reflexivity |].
  exists (join hs), (strip (join cs)). split; [reflexivity |].
  split; [now rewrite join_length |].
  split.
  { intros c Hin. rewrite chars_join in Hin.
    rewrite Forall_forall in Hhex. now apply Hhex. }
  split.
  { pose proof (strip_length (join cs)) as Hs. rewrite join_length in Hs. lia. }
  split.
  { intros c Hin. apply strip_chars in Hin. rewrite chars_join in Hin. auto. }
  split; [apply strip_head | apply strip_last].
Qed.

(** [generate_asset_payload] returns, for every selector and every random
    state, a dict of exactly the keys [checksum], [display], [extra] in
    this order: a checksum of 64 hexadecimal digits, a display name of at
    most 120 letters, digits and spaces without whitespace at either end,
    and the extra structure of the selector.  It never raises. *)
Theorem generate_asset_payload_record (extra_size : string) (g : rng) :
  ∃ (checksum display : string) (g' : rng),
    generate_asset_payload extra_size g
    = (inr (PDict [ ("checksum", PStr checksum);
                    ("display", PStr display);
                    ("extra", generate_extra extra_size) ]), g')
    ∧ String.length checksum = 64%nat
    ∧ (∀ c, c ∈ chars checksum -> c ∈ chars "0123456789abcdef")
    ∧ (String.length display <= 120)%nat
    ∧ (∀ c, c ∈ chars display -> c ∈ display_chars)
    ∧ (∀ c t, display = String c t -> isspace c = false)
    ∧ (∀ t c, display = t +:+ String c "" -> isspace c = false).
Proof.
  destruct (generate_asset_payload_full extra_size g)
    as (a & g' & Hrun & c & d & -> & Hrec).
  exists c, d, g'. split; [exact Hrun | exact Hrec].
Qed.

Lemma comprehension_records (extra_size : string) (xs : list Z) (g : rng) :
  ∃ assets g',
    comprehension (λ _, generate_asset_payload extra_size) xs g
    = (inr assets, g')
    ∧ length assets = length xs
    ∧ Forall (asset_record extra_size) assets.
Proof.
  revert g. induction xs as [|x xs IH]; intros g; simpl.
  - exists [], g. repeat split; constructor.
  - destruct (generate_asset_payload_full extra_size g) as (a & g1 & Ha & Hrec).
    destruct (IH g1) as (assets & g' & Hrest & Hlen & Hall).
    exists (a :: assets), g'. unfold bind. rewrite Ha, Hrest. simpl.
    repeat split; [lia | now constructor].
Qed.

(** ** The text of the file *)

Lemma escape_char_plain (c : ascii) :
  plain c = true -> escape_char c = String c "".
Proof. destruct c as [[] [] [] [] [] [] [] []]; (reflexivity || discriminate). Qed.

Lemma escape_plain (s : string) :
  Forall (λ c, plain c = true) (chars s) -> escape s = s.
Proof.
  induction s as [|c s IH]; [reflexivity |].
  intros H. apply Forall_cons in H as [Hc Hs].
  change (escape (String c s)) with (escape_char c +:+ escape s).
  rewrite (escape_char_plain c Hc), (IH Hs). reflexivity.
Qed.

Lemma hex_chars_plain (c : ascii) :
  c ∈ chars "0123456789abcdef" -> plain c = true.
Proof.
  intros Hin. apply list_elem_of_In in Hin. vm_compute in Hin.
  repeat (destruct Hin as [<- | Hin]; [reflexivity |]). destruct Hin.
Qed.

Lemma display_chars_plain (c : ascii) : c ∈ display_chars -> plain c = true.
Proof.
  intros Hin. apply list_elem_of_In in Hin. vm_compute in Hin.
  repeat (destruct Hin as [<- | Hin]; [reflexivity |]). destruct Hin.
Qed.

Lemma encode_plain (s : string) :
  (∀ c, c ∈ chars s -> plain c = true) ->
  encode_basestring_ascii s = String dquote (s +:+ String dquote "").
Proof.
  intros H. unfold encode_basestring_ascii. rewrite escape_plain; [reflexivity |].
  now apply Forall_forall.
Qed.

Lemma list_sum_cons (n : nat) (l : list nat) :
  list_sum (n :: l) = (n + list_sum l)%nat.
Proof. reflexivity. Qed.

Lemma join_str_length_exact (sep : string) (parts : list string) :
  parts ≠ [] ->
  (String.length (join_str sep parts) + String.length sep
   = list_sum (map (λ p, String.length p + String.length sep) parts))%nat.
Proof.
  induction parts as [|p [|q parts] IH]; [congruence | simpl; lia |].
  intros _. specialize (IH ltac:(congruence)).
  change (join_str sep (p :: q :: parts))
    with (p +:+ sep +:+ join_str sep (q :: parts)).
  rewrite !length_append.
  rewrite (map_cons _ p), list_sum_cons. lia.
Qed.

(** The text of one record: 130 characters of structure and checksum, the
    display name as it is, and the text of the extra structure. *)
Lemma record_length (extra_size : string) (a : pyval) :
  asset_record extra_size a ->
  ∃ display,
    dict_get "display" a = Some (PStr display)
    ∧ (String.length display <= 120)%nat
    ∧ String.length (iterencode a 2)
      = (130 + String.length display
         + String.length (iterencode (generate_extra extra_size) 3))%nat.
Proof.
  intros (c & d & -> & Hc & Hhex & Hd & Hdisp & _).
  exists d. split; [reflexivity |]. split; [exact Hd |].
  pose proof (iterencode_dict 2 ("checksum", PStr c)
                [("display", PStr d); ("extra", generate_extra extra_size)] "")
    as Htext.
  rewrite append_nil_r in Htext. rewrite Htext. clear Htext.
  change (encode_entries 3 [("checksum", PStr c); ("display", PStr d);
                            ("extra", generate_extra extra_size)])
    with (encode_entry 3 ("checksum", PStr c)
          +:+ ("," +:+ newline_indent 3)
          +:+ encode_entry 3 ("display", PStr d)
          +:+ ("," +:+ newline_indent 3)
          +:+ encode_entry 3 ("extra", generate_extra extra_size)).
  unfold encode_entry. cbn [fst snd].
  change (iterencode (PStr c) 3) with (encode_basestring_ascii c).
  change (iterencode (PStr d) 3) with (encode_basestring_ascii d).
  rewrite (encode_plain c), (encode_plain d);
    [| intros x Hx; now apply display_chars_plain, Hdisp
     | intros x Hx; now apply hex_chars_plain, Hhex].
  generalize (iterencode (generate_extra extra_size) 3). intros extra.
  cbn [String.length]. rewrite !length_append. cbn [String.length].
  rewrite !length_append. cbn [String.length].
  change (String.length (newline_indent 3)) with 7%nat.
  change (String.length (newline_indent 2)) with 5%nat.
  change (String.length (encode_basestring_ascii "checksum")) with 10%nat.
  change (String.length (encode_basestring_ascii "display")) with 9%nat.
  change (String.length (encode_basestring_ascii "extra")) with 7%nat.
  rewrite Hc. lia.
Qed.

Lemma is_ascii_closed (s : string) :
  forallb (λ c, (nat_of_ascii c <? 128)%nat) (chars s) = true -> is_ascii_text s.
Proof.
  intros H. apply Forall_forall. intros c Hc.
  rewrite forallb_forall in H. apply Nat.ltb_lt, H. now apply list_elem_of_In.
Qed.

Lemma is_ascii_append (a b : string) :
  is_ascii_text a -> is_ascii_text b -> is_ascii_text (a +:+ b).
Proof.
  unfold is_ascii_text. rewrite chars_append. intros. now apply Forall_app.
Qed.

Lemma escape_char_ascii (c : ascii) : is_ascii_text (escape_char c).
Proof.
  destruct c as [[] [] [] [] [] [] [] []]; apply is_ascii_closed; reflexivity.
Qed.

Lemma encode_basestring_ascii_is_ascii (s : string) :
  is_ascii_text (encode_basestring_ascii s).
Proof.
  unfold encode_basestring_ascii.
  change (String dquote ?t) with (String dquote "" +:+ t).
  apply is_ascii_append; [apply is_ascii_closed; reflexivity |].
  apply is_ascii_append; [| apply is_ascii_closed; reflexivity].
  induction s as [|c s IH]; [constructor |].
  change (escape (String c s)) with (escape_char c +:+ escape s).
  apply is_ascii_append; [apply escape_char_ascii | exact IH].
Qed.

Lemma newline_indent_is_ascii (level : nat) : is_ascii_text (newline_indent level).
Proof.
  unfold newline_indent.
  change (String LF ?t) with (String LF "" +:+ t).
  apply is_ascii_append; [apply is_ascii_closed; reflexivity |].
  induction level as [|n IH]; [constructor |].
  change (str_repeat "  " (S n)) with ("  " +:+ str_repeat "  " n).
  apply is_ascii_append; [apply is_ascii_closed; reflexivity | exact IH].
Qed.

Lemma join_str_is_ascii (sep : string) (parts : list string) :
  is_ascii_text sep -> Forall is_ascii_text parts ->
  is_ascii_text (join_str sep parts).
Proof.
  intros Hsep. induction 1 as [|p parts Hp Hparts IH]; [constructor |].
  destruct parts as [|q parts]; [exact Hp |].
  change (join_str sep (p :: q :: parts))
    with (p +:+ sep +:+ join_str sep (q :: parts)).
  repeat apply is_ascii_append; assumption.
Qed.

Lemma iterencode_is_ascii (v : pyval) (level : nat) :
  is_ascii_text (iterencode v level).
Proof.
  revert level. induction v as [s | xs IH | items IH] using pyval_ind;
    intros level.
  - apply encode_basestring_ascii_is_ascii.
  - destruct xs as [|x xs]; [apply is_ascii_closed; reflexivity |].
    pose proof (iterencode_list level x xs "") as Htext.
    rewrite append_nil_r in Htext. rewrite Htext.
    change (String "[" ?t) with ("[" +:+ t).
    repeat apply is_ascii_append;
      try apply newline_indent_is_ascii; try (apply is_ascii_closed; reflexivity).
    apply join_str_is_ascii.
    + apply (is_ascii_append ","); [apply is_ascii_closed; reflexivity |].
      apply newline_indent_is_ascii.
    + apply Forall_map. eapply Forall_impl; [exact IH |]. intros y Hy. apply Hy.
  - destruct items as [|kv items]; [apply is_ascii_closed; reflexivity |].
    pose proof (iterencode_dict level kv items "") as Htext.
    rewrite append_nil_r in Htext. rewrite Htext.
    change (String "{" ?t) with ("{" +:+ t).
    repeat apply is_ascii_append;
      try apply newline_indent_is_ascii; try (apply is_ascii_closed; reflexivity).
    apply join_str_is_ascii.
    + apply (is_ascii_append ","); [apply is_ascii_closed; reflexivity |].
      apply newline_indent_is_ascii.
    + apply Forall_map. eapply Forall_impl; [exact IH |]. intros y Hy.
      unfold encode_entry.
      repeat apply is_ascii_append;
        [apply encode_basestring_ascii_is_ascii
        | apply is_ascii_closed; reflexivity | apply Hy].
Qed.

Lemma encode_utf8_ascii (s : string) :
  is_ascii_text s -> encode_utf8 s = chars s.
Proof.
  induction s as [|c s IH]; [reflexivity |].
  intros H. apply Forall_cons in H as [Hc Hs]. simpl.
  apply Nat.ltb_lt in Hc. rewrite Hc. f_equal. now apply IH.
Qed.

Lemma byte_size_dumps (obj : pyval) :
  byte_size (json_dumps obj) = Z.of_nat (String.length (json_dumps obj)).
Proof.
  unfold byte_size, json_dumps.
  now rewrite (encode_utf8_ascii _ (iterencode_is_ascii obj 0)), chars_length.
Qed.

(** The text [json.dumps] returns holds ASCII characters only, so the
    number of bytes [main] measures and reports is the number of characters
    of the file. *)
Theorem json_dumps_ascii (obj : pyval) :
  is_ascii_text (json_dumps obj)
  ∧ encode_utf8 (json_dumps obj) = chars (json_dumps obj)
  ∧ byte_size (json_dumps obj) = Z.of_nat (String.length (json_dumps obj)).
Proof.
  assert (H : is_ascii_text (json_dumps obj)) by apply iterencode_is_ascii.
  split; [exact H |]. split; [now apply encode_utf8_ascii |].
  apply byte_size_dumps.
Qed.

(** ** The size of the file *)

Lemma extra_length (tier : string) :
  Z.of_nat (String.length (iterencode (generate_extra tier) 3)) + 136
  = record_chars tier.
Proof.
  unfold generate_extra, record_chars.
  destruct (String.eqb_spec tier "none") as [-> | _]; [reflexivity |].
  destruct (String.eqb_spec tier "small") as [-> | _]; [reflexivity |].
  destruct (String.eqb_spec tier "medium") as [-> | _];
    [vm_compute; reflexivity |].
  destruct (String.eqb_spec tier "large") as [-> | _];
    [vm_compute; reflexivity | reflexivity].
Qed.

Lemma batch_length (x : pyval) (xs : list pyval) :
  String.length (json_dumps (PDict [("assets", PList (x :: xs))]))
  = (20 + list_sum (map (λ a, String.length (iterencode a 2) + 6) (x :: xs)))%nat.
Proof.
  unfold json_dumps.
  pose proof (iterencode_dict 0 ("assets", PList (x :: xs)) [] "") as Htext.
  rewrite append_nil_r in Htext. rewrite Htext. clear Htext.
  change (encode_entries 1 [("assets", PList (x :: xs))])
    with (encode_basestring_ascii "assets" +:+ ": "
          +:+ iterencode (PList (x :: xs)) 1).
  pose proof (iterencode_list 1 x xs "") as Hlist.
  rewrite append_nil_r in Hlist. rewrite Hlist. clear Hlist.
  pose proof (join_str_length_exact ("," +:+ newline_indent 2)
                (map (λ a, iterencode a 2) (x :: xs)) ltac:(discriminate))
    as Hjoin.
  fold (encode_items 2 (x :: xs)) in Hjoin. rewrite map_map in Hjoin.
  change (String.length ("," +:+ newline_indent 2)) with 6%nat in Hjoin.
  generalize dependent (encode_items 2 (x :: xs)). intros items Hjoin.
  cbn [String.length]. rewrite !length_append. cbn [String.length].
  rewrite !length_append. cbn [String.length].
  change (String.length (newline_indent 2)) with 5%nat.
  change (String.length (newline_indent 1)) with 3%nat.
  change (String.length (newline_indent 0)) with 1%nat.
  change (String.length (encode_basestring_ascii "assets")) with 8%nat.
  rewrite <- Hjoin. lia.
Qed.

Lemma records_length (tier : string) (assets : list pyval) :
  Forall (asset_record tier) assets ->
  Z.of_nat (list_sum (map (λ a, String.length (iterencode a 2) + 6)%nat assets))
  = Z.of_nat (length assets) * record_chars tier
    + sum_Z (display_length <$> assets)
  ∧ 0 <= sum_Z (display_length <$> assets) <= 120 * Z.of_nat (length assets).
Proof.
  induction 1 as [|a assets Ha _ [IH1 IH2]]; [simpl; lia |].
  destruct (record_length tier a Ha) as (d & Hget & Hd & Hlen).
  assert (Hdl : display_length a = Z.of_nat (String.length d))
    by (unfold display_length; now rewrite Hget).
  pose proof (extra_length tier) as He.
  rewrite map_cons, list_sum_cons, Hlen.
  change (sum_Z (display_length <$> a :: assets))
    with (display_length a + sum_Z (display_length <$> assets)).
  rewrite Hdl. simpl length. lia.
Qed.

Lemma generate_batch_payload_records (N : Z) (selector : string) (g : rng) :
  ∃ assets g',
    generate_batch_payload N selector g
    = (inr (PDict [("assets", PList assets)]), g')
    ∧ Z.of_nat (length assets) = Z.max 0 N
    ∧ Forall (asset_record selector) assets.
Proof.
  destruct (comprehension_records selector (range N) g)
    as (assets & g' & Hrun & Hlen & Hall).
  exists assets, g'. unfold generate_batch_payload, bind. rewrite Hrun.
  rewrite range_length in Hlen. split; [reflexivity |]. split; [lia | exact Hall].
Qed.

Lemma batch_size (N : Z) (tier : string) (g : rng) :
  ∃ assets g',
    generate_batch_payload N tier g
    = (inr (PDict [("assets", PList assets)]), g')
    ∧ Z.of_nat (length assets) = Z.max 0 N
    ∧ Forall (asset_record tier) assets
    ∧ (N <= 0 -> byte_size (json_dumps (PDict [("assets", PList assets)])) = 18)
    ∧ (0 < N ->
       byte_size (json_dumps (PDict [("assets", PList assets)]))
       = 20 + N * record_chars tier + sum_Z (display_length <$> assets)
       ∧ 0 <= sum_Z (display_length <$> assets) <= 120 * N).
Proof.
  destruct (generate_batch_payload_records N tier g)
    as (assets & g' & Hrun & Hlen & Hall).
  exists assets, g'. split; [exact Hrun |]. split; [exact Hlen |].
  split; [exact Hall |]. rewrite byte_size_dumps.
  split.
  - intros HN. destruct assets; [reflexivity | simpl in Hlen; lia].
  - intros HN. destruct assets as [|x xs]; [simpl in Hlen; lia |].
    destruct (records_length tier (x :: xs) Hall) as [Hsum Hbound].
    rewrite batch_length, Nat2Z.inj_add, Hsum.
    replace (Z.of_nat (length (x :: xs))) with N in * by lia.
    split; [lia | lia].
Qed.

(** The file of a batch of [N >= 1] records has exactly [20 + N * c + d]
    characters, and as many bytes: [c] is 138, 272, 666 or 3390 for the
    tier [none], [small], [medium] or [large] (138 for any other selector)
    and [d], the total length of the display names, is at most [120 * N].
    A batch without records has 18. *)
Theorem batch_file_size (N : Z) (tier : string) (g : rng) :
  (∃ assets g',
     generate_batch_payload N tier g
     = (inr (PDict [("assets", PList assets)]), g')
     ∧ (N <= 0 ->
        byte_size (json_dumps (PDict [("assets", PList assets)])) = 18)
     ∧ (0 < N ->
        byte_size (json_dumps (PDict [("assets", PList assets)]))
        = 20 + N * record_chars tier + sum_Z (display_length <$> assets)
        ∧ 0 <= sum_Z (display_length <$> assets) <= 120 * N
        ∧ 20 + N * record_chars tier
          <= byte_size (json_dumps (PDict [("assets", PList assets)]))
          <= 20 + N * (record_chars tier + 120)))
  ∧ record_chars "none" = 138 ∧ record_chars "small" = 272
  ∧ record_chars "medium" = 666 ∧ record_chars "large" = 3390.
Proof.
  split; [| easy].
  destruct (batch_size N tier g) as (assets & g' & Hrun & _ & _ & H0 & H1).
  exists assets, g'. split; [exact Hrun |]. split; [exact H0 |].
  intros HN. destruct (H1 HN) as [Heq Hd]. rewrite Heq.
  split; [reflexivity |]. split; [exact Hd | lia].
Qed.

(** ** More on format_size *)

Lemma float_of_int_exact_abs (b : Z) :
  Z.abs b < 2 ^ 53 -> float_of_int b = inr (Float b 0).
Proof.
  intros Hb. unfold float_of_int.
  destruct (Z.leb_spec (Z.log2 (Z.abs b) - 52) 0) as [_ | He]; [reflexivity |].
  exfalso. assert (Z.log2 (Z.abs b) < 53); [| lia].
  destruct (Z.eq_dec (Z.abs b) 0) as [-> | Hnz]; [simpl; lia |].
  apply Z.log2_lt_pow2; lia.
Qed.

Lemma round_half_even_unit (n : Z) : round_half_even n 1 = n.
Proof.
  unfold round_half_even. rewrite Z.div_1_r, Z.mod_1_r. reflexivity.
Qed.

Lemma render_hundredths_whole (a : Z) :
  render_hundredths (100 * a) = str_int a +:+ ".00".
Proof.
  unfold render_hundredths, two_digits.
  replace (100 * a) with (a * 100) by lia.
  rewrite Z.div_mul, Z.mod_mul by lia. reflexivity.
Qed.

Lemma str_int_negative (b : Z) : b < 0 -> str_int b = "-" +:+ str_int (- b).
Proof. destruct b as [|p|p]; [lia | lia | reflexivity]. Qed.

(** A count below 1024, a negative one as well, is shown as the integer
    itself with two zero decimals in B: negative counts never reach
    another unit. *)
Theorem format_size_below_1024 (b : Z) :
  - 2 ^ 53 < b < 1024 ->
  format_size (NInt b) = inr (str_int b +:+ ".00 B").
Proof.
  intros Hb. unfold format_size, format_size_loop, lt_1024.
  destruct (Z.ltb_spec b 1024); [| lia].
  unfold format_2f. rewrite float_of_int_exact_abs by lia.
  simpl mbind. simpl mret. unfold format_float_2f. cbn [fnum fexp].
  change (2 ^ Z.of_nat 0) with 1.
  rewrite round_half_even_unit, render_hundredths_whole.
  destruct (Z.ltb_spec b 0).
  - rewrite Z.abs_neq by lia. rewrite (str_int_negative b) by lia.
    rewrite !append_assoc. reflexivity.
  - rewrite Z.abs_eq by lia. rewrite !append_assoc. reflexivity.
Qed.

Lemma format_size_below_1024_witness :
  - 2 ^ 53 < -5000000 < 1024
  ∧ format_size (NInt (-5000000)) = inr "-5000000.00 B".
Proof.
  split; [lia |]. apply (format_size_below_1024 (-5000000)). lia.
Defined.

Lemma round_half_even_scale (c n d : Z) :
  0 < c -> 0 < d ->
  round_half_even (c * n) (c * d) = round_half_even n d.
Proof.
  intros Hc Hd. unfold round_half_even.
  rewrite Z.div_mul_cancel_l, Z.mul_mod_distr_l by lia.
  destruct (Z.ltb_spec (2 * (c * (n mod d))) (c * d)),
           (Z.ltb_spec (2 * (n mod d)) d);
    try reflexivity; try (exfalso; nia).
  destruct (Z.ltb_spec (c * d) (2 * (c * (n mod d)))),
           (Z.ltb_spec d (2 * (n mod d)));
    try reflexivity; exfalso; nia.
Qed.

(** Multiplying a count by 1024 keeps the number shown and moves to the
    next unit, for every count from 1 to below [1024 ^ 4]. *)
Theorem format_size_times_1024 (b : Z) :
  1 <= b < 1024 ^ 4 ->
  ∃ (number : string) (k : nat) (unit unit' : string),
    size_units !! k = Some unit
    ∧ size_units !! S k = Some unit'
    ∧ format_size (NInt b) = inr (number +:+ " " +:+ unit)
    ∧ format_size (NInt (1024 * b)) = inr (number +:+ " " +:+ unit').
Proof.
  intros Hb.
  destruct (format_size_units b b) as (k & Hk & Hlt & Hge & Hfmt);
    [lia | apply float_of_int_exact; lia | easy | lia |].
  destruct (format_size_units (1024 * b) (1024 * b))
    as (k' & Hk' & Hlt' & Hge' & Hfmt');
    [lia | apply float_of_int_exact; lia | easy | lia |].
  assert (Hnext : k' = S k).
  { destruct k as [|[|[|[|[|]]]]]; try lia;
      destruct k' as [|[|[|[|[|]]]]]; try lia;
      try reflexivity; exfalso;
      repeat match goal with
             | H : (_ < _)%nat -> _ |- _ =>
                 first [specialize (H ltac:(lia)) | clear H]
             end;
      simpl Z.of_nat in *; lia. }
  subst k'.
  exists (format_float_2f (Float b (10 * k))), k.
  assert (Hunits : ∃ unit unit', size_units !! k = Some unit
                                 ∧ size_units !! S k = Some unit').
  { do 4 (destruct k as [|k]; [eexists _, _; split; reflexivity |]). lia. }
  destruct Hunits as (unit & unit' & Hu & Hu').
  exists unit, unit'. split; [exact Hu |]. split; [exact Hu' |].
  rewrite Hfmt, Hfmt', Hu, Hu'. split; [reflexivity |]. simpl default.
  do 2 f_equal. unfold format_float_2f. cbn [fnum fexp].
  assert (Hscale : 2 ^ Z.of_nat (10 * S k) = 1024 * 2 ^ Z.of_nat (10 * k)).
  { replace (Z.of_nat (10 * S k)) with (10 + Z.of_nat (10 * k)) by lia.
    rewrite Z.pow_add_r by lia. reflexivity. }
  rewrite Hscale.
  destruct (Z.ltb_spec (1024 * b) 0), (Z.ltb_spec b 0); try lia.
  rewrite !Z.abs_eq by lia.
  replace (100 * (1024 * b)) with (1024 * (100 * b)) by lia.
  rewrite round_half_even_scale; [reflexivity | lia |].
  apply Z.pow_pos_nonneg; lia.
Qed.

Lemma format_size_times_1024_witness :
  1 <= 1536 < 1024 ^ 4
  ∧ format_size (NInt 1536) = inr "1.50 KB"
  ∧ format_size (NInt (1024 * 1536)) = inr "1.50 MB"
  ∧ ∃ (number : string) (k : nat) (unit unit' : string),
      size_units !! k = Some unit
      ∧ size_units !! S k = Some unit'
      ∧ format_size (NInt 1536) = inr (number +:+ " " +:+ unit)
      ∧ format_size (NInt (1024 * 1536)) = inr (number +:+ " " +:+ unit').
Proof.
  split; [lia |]. split; [reflexivity |]. split; [reflexivity |].
  apply (format_size_times_1024 1536). lia.
Defined.

(** *** Where the conversion to float overflows *)

Lemma rounded_mantissa (q r half : Z) :
  let m := if (r <? half) || (r =? half) && Z.even q then q else q + 1 in
  (m = q ∧ (r < half ∨ (r = half ∧ Z.even q = true)))
  ∨ (m = q + 1 ∧ (half < r ∨ (r = half ∧ Z.even q = false))).
Proof.
  simpl. destruct (Z.ltb_spec r half); simpl; [left; lia |].
  destruct (Z.eqb_spec r half); simpl; [| right; lia].
  destruct (Z.even q); [left | right]; lia.
Qed.

Lemma float_of_int_wide (b : Z) :
  2 ^ 53 <= b < float_limit ->
  ∃ x, float_of_int b = inr (Float x 0) ∧ 2 ^ 53 <= x.
Proof.
  unfold float_limit. intros [Hlo Hhi]. unfold float_of_int.
  assert (HA : 0 < 2 ^ 970) by (apply Z.pow_pos_nonneg; lia).
  assert (H1024 : 2 ^ 1024 = 2 ^ 54 * 2 ^ 970)
    by (rewrite <- Z.pow_add_r by lia; reflexivity).
  assert (Hb0 : 0 < b) by lia.
  rewrite Z.abs_eq by lia.
  assert (Hl53 : 53 <= Z.log2 b).
  { change 53 with (Z.log2 (2 ^ 53)). now apply Z.log2_le_mono. }
  assert (Hl1024 : Z.log2 b < 1024) by (apply Z.log2_lt_pow2; lia).
  destruct (Z.log2_spec b Hb0) as [Hl Hu].
  set (e := Z.log2 b - 52) in *.
  assert (He : 1 <= e <= 971) by lia.
  replace (Z.log2 b) with (52 + e) in Hl, Hu by lia.
  replace (Z.succ (52 + e)) with (53 + e) in Hu by lia.
  rewrite Z.pow_add_r in Hl, Hu by lia.
  assert (HP : 2 ^ e <= 2 ^ 970 ∨ 2 ^ e = 2 * 2 ^ 970).
  { destruct (Z.le_gt_cases e 970) as [H | H].
    - left. apply Z.pow_le_mono_r; lia.
    - right. replace e with (1 + 970) by lia.
      rewrite Z.pow_add_r by lia. reflexivity. }
  assert (Hhalf : 2 ^ e = 2 * 2 ^ (e - 1)).
  { replace e with (1 + (e - 1)) at 1 by lia.
    rewrite Z.pow_add_r by lia. reflexivity. }
  assert (Hpos : 0 < 2 ^ (e - 1)) by (apply Z.pow_pos_nonneg; lia).
  rewrite H1024 in Hhi |- *.
  destruct (Z.leb_spec e 0) as [He0 | _]; [lia |].
  pose proof (Z.div_mod b (2 ^ e)) as Hdm.
  pose proof (Z.mod_pos_bound b (2 ^ e)) as Hr.
  pose proof (rounded_mantissa (b / 2 ^ e) (b mod 2 ^ e) (2 ^ (e - 1))) as Hm.
  cbv zeta in Hm.
  set (m := if (b mod 2 ^ e <? 2 ^ (e - 1))
               || (b mod 2 ^ e =? 2 ^ (e - 1)) && Z.even (b / 2 ^ e)
            then b / 2 ^ e else b / 2 ^ e + 1) in *.
  clearbody m.
  set (q := b / 2 ^ e) in *. set (r := b mod 2 ^ e) in *.
  set (half := 2 ^ (e - 1)) in *. set (P := 2 ^ e) in *.
  set (A := 2 ^ 970) in *.
  clearbody q r half P A. clear H1024 Hl53 Hl1024 e He.
  assert (HPpos : 0 < P) by lia.
  specialize (Hdm ltac:(lia)). specialize (Hr HPpos).
  assert (Hq : 2 ^ 52 <= q < 2 ^ 53) by nia.
  assert (Hmq : q <= m <= q + 1) by lia.
  assert (Hm53 : P = 2 * A -> m <= 2 ^ 53 - 1).
  { intros HPA. destruct Hm as [[-> _] | [-> Hrh]]; [lia |].
    assert (half = A) by lia. subst half.
    destruct (Z.eq_dec q (2 ^ 53 - 1)) as [-> | Hne]; [| lia].
    exfalso. nia. }
  assert (Hv : m * P < 2 ^ 54 * A).
  { destruct HP as [HPA | HPA]; [nia |]. specialize (Hm53 HPA). nia. }
  destruct (Z.leb_spec (2 ^ 54 * A) (m * P)); [lia |].
  replace (Z.sgn b) with 1 by lia.
  eexists. split; [reflexivity |]. nia.
Qed.

Lemma float_of_int_overflows (b : Z) :
  float_limit <= b -> float_of_int b = inl OverflowError.
Proof.
  unfold float_limit. intros Hb. unfold float_of_int.
  assert (HA : 0 < 2 ^ 970) by (apply Z.pow_pos_nonneg; lia).
  assert (H1024 : 2 ^ 1024 = 2 ^ 54 * 2 ^ 970)
    by (rewrite <- Z.pow_add_r by lia; reflexivity).
  assert (H1023 : 2 ^ 1023 = 2 ^ 53 * 2 ^ 970)
    by (rewrite <- Z.pow_add_r by lia; reflexivity).
  assert (Hb1023 : 2 ^ 1023 <= b) by lia.
  assert (Hb0 : 0 < b) by lia.
  rewrite Z.abs_eq by lia.
  assert (Hl1023 : 1023 <= Z.log2 b).
  { rewrite <- (Z.log2_pow2 1023) by lia. now apply Z.log2_le_mono. }
  destruct (Z.log2_spec b Hb0) as [Hl Hu].
  set (e := Z.log2 b - 52) in *.
  assert (He : 971 <= e) by lia.
  replace (Z.log2 b) with (52 + e) in Hl, Hu by lia.
  replace (Z.succ (52 + e)) with (53 + e) in Hu by lia.
  rewrite Z.pow_add_r in Hl, Hu by lia.
  assert (HP : ∃ t, 1 <= t ∧ 2 ^ e = 2 * 2 ^ 970 * t).
  { exists (2 ^ (e - 971)). split.
    - assert (0 < 2 ^ (e - 971)) by (apply Z.pow_pos_nonneg; lia). lia.
    - replace e with (1 + 970 + (e - 971)) at 1 by lia.
      rewrite !Z.pow_add_r by lia. reflexivity. }
  assert (Hhalf : 2 ^ e = 2 * 2 ^ (e - 1)).
  { replace e with (1 + (e - 1)) at 1 by lia.
    rewrite Z.pow_add_r by lia. reflexivity. }
  rewrite H1024 in Hb |- *.
  destruct (Z.leb_spec e 0) as [Hle | _]; [lia |].
  pose proof (Z.div_mod b (2 ^ e)) as Hdm.
  pose proof (Z.mod_pos_bound b (2 ^ e)) as Hr.
  pose proof (rounded_mantissa (b / 2 ^ e) (b mod 2 ^ e) (2 ^ (e - 1))) as Hm.
  cbv zeta in Hm.
  set (m := if (b mod 2 ^ e <? 2 ^ (e - 1))
               || (b mod 2 ^ e =? 2 ^ (e - 1)) && Z.even (b / 2 ^ e)
            then b / 2 ^ e else b / 2 ^ e + 1) in *.
  clearbody m.
  set (q := b / 2 ^ e) in *. set (r := b mod 2 ^ e) in *.
  set (half := 2 ^ (e - 1)) in *. set (P := 2 ^ e) in *.
  destruct HP as (t & Ht & HPt).
  set (A := 2 ^ 970) in *.
  clearbody q r half P A. clear H1024 Hl1023 Hb1023 H1023 e He.
  assert (HPpos : 0 < P) by nia.
  specialize (Hdm ltac:(lia)). specialize (Hr HPpos).
  assert (Hq : 2 ^ 52 <= q < 2 ^ 53) by nia.
  assert (Hv : 2 ^ 54 * A <= m * P).
  { destruct (Z.eq_dec t 1) as [-> | Hne].
    - assert (half = A) by lia. subst half.
      assert (Hq' : q = 2 ^ 53 - 1) by nia. subst q.
      destruct Hm as [[-> [Hrh | [Hrh Heven]]] | [-> _]];
        [exfalso; nia | discriminate Heven | nia].
    - assert (2 <= t) by lia. assert (q <= m) by lia. nia. }
  destruct (Z.leb_spec (2 ^ 54 * A) (m * P)); [reflexivity | lia].
Qed.

Lemma float_of_int_raises (i : Z) (e : exn) :
  float_of_int i = inl e -> e = OverflowError.
Proof.
  unfold float_of_int.
  destruct (_ <=? 0); [discriminate |].
  destruct (2 ^ 1024 <=? _); [now intros [= <-] | discriminate].
Qed.

Lemma format_size_loop_raises (units : list string) (x : pynum) (e : exn) :
  format_size_loop units x = inl e -> e = OverflowError.
Proof.
  revert x. induction units as [|unit units IH]; intros x; simpl.
  - unfold format_2f. destruct x as [i | f]; simpl; [| discriminate].
    destruct (float_of_int i) eqn:E; simpl; [| discriminate].
    intros [= <-]. now apply float_of_int_raises in E.
  - destruct (lt_1024 x).
    + unfold format_2f. destruct x as [i | f]; simpl; [| discriminate].
      destruct (float_of_int i) eqn:E; simpl; [| discriminate].
      intros [= <-]. now apply float_of_int_raises in E.
    + unfold truediv_1024. destruct x as [i | f]; simpl; [| apply IH].
      destruct (float_of_int i) eqn:E; simpl; [| apply IH].
      intros [= <-]. now apply float_of_int_raises in E.
Qed.

Lemma format_size_returns (b : Z) :
  0 <= b < float_limit -> ∃ text, format_size (NInt b) = inr text.
Proof.
  intros Hb. destruct (Z.lt_ge_cases b (2 ^ 53)) as [Hlt | Hge].
  - destruct (format_size_units b b) as (k & _ & _ & _ & Hfmt);
      [lia | apply float_of_int_exact; lia | easy | lia |].
    eexists. exact Hfmt.
  - destruct (float_of_int_wide b) as (x & Hx & Hx53); [lia |].
    destruct (format_size_units b x) as (k & _ & _ & _ & Hfmt);
      [lia | exact Hx | lia | easy |].
    eexists. exact Hfmt.
Qed.

(** [format_size] returns a text for every count from 0 to below
    [2 ^ 1024 - 2 ^ 970] and raises [OverflowError] from there on: such an
    integer does not convert to float. *)
Theorem format_size_overflow (b : Z) :
  0 <= b ->
  (b < float_limit -> ∃ text, format_size (NInt b) = inr text)
  ∧ (float_limit <= b -> format_size (NInt b) = inl OverflowError).
Proof.
  intros Hb. split.
  - intros Hlt. apply format_size_returns. lia.
  - intros Hge. unfold format_size, format_size_loop, lt_1024.
    assert (1024 <= b) by (unfold float_limit in Hge; lia).
    destruct (Z.ltb_spec b 1024); [lia |].
    unfold truediv_1024. now rewrite (float_of_int_overflows b Hge).
Qed.

Lemma format_size_overflow_witness :
  0 <= 2 ^ 1024
  ∧ float_limit <= 2 ^ 1024
  ∧ format_size (NInt (2 ^ 1024)) = inl OverflowError
  ∧ float_limit - 1 < float_limit
  ∧ ∃ text, format_size (NInt (float_limit - 1)) = inr text.
Proof.
  assert (H0 : 0 <= 2 ^ 1024) by lia.
  assert (H1 : float_limit <= 2 ^ 1024) by (unfold float_limit; lia).
  assert (H2 : 0 <= float_limit - 1) by (unfold float_limit; lia).
  split; [exact H0 |]. split; [exact H1 |].
  split; [apply (format_size_overflow (2 ^ 1024) H0), H1 |].
  split; [lia |]. apply (format_size_overflow (float_limit - 1) H2). lia.
Defined.

(** ** Runs that complete *)

(** [generate_batch_payload] does not check its selector: for one outside
    the four it returns [max(0, N)] records all the same, each with an
    empty [extra]. *)
Theorem generate_batch_payload_unknown_selector
    (N : Z) (selector : string) (g : rng) :
  selector ∉ extra_sizes ->
  ∃ assets g',
    generate_batch_payload N selector g
    = (inr (PDict [("assets", PList assets)]), g')
    ∧ Z.of_nat (length assets) = Z.max 0 N
    ∧ Forall (λ a, ∃ checksum display : string,
                a = PDict [ ("checksum", PStr checksum);
                            ("display", PStr display);
                            ("extra", PDict []) ]) assets.
Proof.
  intros Hout.
  assert (Hextra : generate_extra selector = PDict []).
  { apply generate_extra_else; intros ->; apply Hout; unfold extra_sizes;
      set_solver. }
  destruct (generate_batch_payload_records N selector g)
    as (assets & g' & Hrun & Hlen & Hall).
  exists assets, g'. split; [exact Hrun |]. split; [exact Hlen |].
  eapply Forall_impl; [exact Hall |].
  intros a (c & d & -> & _). exists c, d. now rewrite Hextra.
Qed.

Lemma generate_batch_payload_unknown_selector_witness :
  ("huge" ∉ extra_sizes)
  ∧ ∃ assets g',
      generate_batch_payload 2 "huge" (constant_rng 4)
      = (inr (PDict [("assets", PList assets)]), g')
      ∧ Z.of_nat (length assets) = Z.max 0 2.
Proof.
  assert (Hout : "huge" ∉ extra_sizes)
    by (apply (bool_decide_unpack _); vm_compute; exact I).
  split; [exact Hout |].
  destruct (generate_batch_payload_unknown_selector 2 "huge" (constant_rng 4)
              Hout) as (assets & g' & Hrun & Hlen & _).
  exists assets, g'. split; [exact Hrun | exact Hlen].
Defined.





(** The exit status is 0 or 1, and it is 0 only when the count parsed and
    the tier is one of the four. *)
Theorem run_script_exit_status (argv : list string) (w : world) :
  ((run_script argv w).1 = 0 ∨ (run_script argv w).1 = 1)
  ∧ ((run_script argv w).1 = 0 ->
     ∃ N, count_of argv = inr N ∧ tier_of argv ∈ extra_sizes).
Proof.
  unfold run_script.
  destruct (count_of argv) as [e | N] eqn:Hc.
  { rewrite (main_count_error argv w e Hc).
    assert (e = ValueError) as ->.
    { unfold count_of in Hc. destruct (argv !! 1%nat); [| discriminate].
      now apply py_int_raises in Hc. }
    simpl. split; [now right | discriminate]. }
  destruct (decide (tier_of argv ∈ extra_sizes)) as [Hin | Hout].
  2: { rewrite (main_tier_error argv w N Hc Hout). simpl.
       split; [now right | discriminate]. }
  destruct (generate_batch_payload_ok N (tier_of argv) (random w))
    as (assets & g' & Hgen & _).
  rewrite (main_generated argv w N _ g' Hc Hin Hgen).
  destruct (format_size _) as [e | formatted] eqn:Hfmt.
  - apply format_size_loop_raises in Hfmt as ->. simpl.
    split; [now right | discriminate].
  - simpl. split; [now left |]. intros _. now exists N.
Qed.
